(** * Candidate-Insights: the transcript sanitizer and the two HTTP pipelines

    A shallow embedding of [main.py]: the regular-expression substitutions of
    [clean_transcript], and the handlers [transcribe_endpoint] and
    [generate_report_endpoint] with the helpers they call, over an explicit
    world (temporary files, log of outbound calls) and the answers of the
    external services. Start-up (lines 14-36) and logging are left out. *)

From Stdlib Require Import ZArith NArith List Bool Lia Ascii String.
From Stdlib Require Import Numbers.DecimalString Floats.SpecFloat.
From stdpp Require Import base option list gmap.

Local Open Scope N_scope.

(** ** Strings

    A Python [str] is a sequence of Unicode code points. *)

Definition char := N.
Definition pystr := list char.

Definition ch (a : ascii) : char := N_of_ascii a.

(** The code points of an ASCII literal. *)
Definition str (s : string) : pystr := List.map ch (list_ascii_of_string s).

Definition NL : char := 10.
Definition SPACE : char := 32.
Definition BACKSLASH : char := 92.
Definition DQUOTE : char := 34.
Definition EN_DASH : char := 8211.
Definition EM_DASH : char := 8212.

(** ** Character classes of the [re] module on [str] patterns *)

(** [\s]: the code points for which [str.isspace] holds; the same table
    serves [str.strip]. *)
Definition is_space (c : char) : bool :=
  ((9 <=? c) && (c <=? 13)) || ((28 <=? c) && (c <=? 32))
  || (c =? 133) || (c =? 160) || (c =? 5760)
  || ((8192 <=? c) && (c <=? 8202))
  || (c =? 8232) || (c =? 8233) || (c =? 8239) || (c =? 8287) || (c =? 12288).

(** First code point of each block of ten decimal digits (general category
    Nd, Unicode 14.0, the database of CPython 3.11); the mathematical digits
    U+1D7CE..U+1D7FF are five consecutive blocks. *)
Definition decimal_blocks : list N :=
  [ 0x30; 0x660; 0x6f0; 0x7c0; 0x966; 0x9e6; 0xa66; 0xae6; 0xb66; 0xbe6;
    0xc66; 0xce6; 0xd66; 0xde6; 0xe50; 0xed0; 0xf20; 0x1040; 0x1090; 0x17e0;
    0x1810; 0x1946; 0x19d0; 0x1a80; 0x1a90; 0x1b50; 0x1bb0; 0x1c40; 0x1c50;
    0xa620; 0xa8d0; 0xa900; 0xa9d0; 0xa9f0; 0xaa50; 0xabf0; 0xff10; 0x104a0;
    0x10d30; 0x11066; 0x110f0; 0x11136; 0x111d0; 0x112f0; 0x11450; 0x114d0;
    0x11650; 0x116c0; 0x11730; 0x118e0; 0x11950; 0x11c50; 0x11d50; 0x11da0;
    0x16a60; 0x16ac0; 0x16b50;
    0x1d7ce; 0x1d7d8; 0x1d7e2; 0x1d7ec; 0x1d7f6;
    0x1e140; 0x1e2f0; 0x1e950; 0x1fbf0 ].

(** [\d]: a Unicode decimal digit. *)
Definition is_digit (c : char) : bool :=
  existsb (fun z => (z <=? c) && (c <? z + 10)) decimal_blocks.

(** The members of the bracketed character class of line 42, in its order:
    hyphen, en dash, em dash, underscore, equals, asterisk, hash, braces,
    angle brackets, square brackets, double quote, single quote, backtick,
    pipe. *)
Definition punctuation : list char :=
  [ ch "-"; EN_DASH; EM_DASH; ch "_"; ch "="; ch "*"; ch "#"; ch "{"; ch "}";
    ch "<"; ch ">"; ch "["; ch "]"; DQUOTE; ch "'"; ch "`"; ch "|" ].

Definition mem (c : char) (cs : list char) : bool :=
  existsb (N.eqb c) cs.

Inductive atom :=
| Lit (c : char)          (* a literal character *)
| Digit                   (* \d *)
| Space                   (* \s *)
| Dot                     (* . : anything but a newline *)
| OneOf (cs : list char). (* [...] *)

Definition atom_match (a : atom) (c : char) : bool :=
  match a with
  | Lit x => c =? x
  | Digit => is_digit c
  | Space => is_space c
  | Dot => negb (c =? NL)
  | OneOf cs => mem c cs
  end.

(** ** Patterns and matching

    Every pattern of [clean_transcript] is a sequence of single-character
    atoms, each with a repetition count; [p_max = None] is "no upper bound". *)

Record piece := Piece {
  p_atom : atom;
  p_min : nat;
  p_max : option nat;
  p_greedy : bool
}.

Definition pattern := list piece.

Definition once (a : atom) : piece := Piece a 1 (Some 1%nat) true.
Definition opt (a : atom) : piece := Piece a 0 (Some 1%nat) true.
Definition plus (a : atom) : piece := Piece a 1 None true.
Definition at_least (n : nat) (a : atom) : piece := Piece a n None true.
Definition lazy_star (a : atom) : piece := Piece a 0 None false.

Definition may_take (max : option nat) : bool :=
  match max with Some O => false | _ => true end.

Definition or_else {A} (x y : option A) : option A :=
  match x with Some _ => x | None => y end.

(** Backtracking repetition of one atom followed by the continuation [k]
    (the rest of the pattern): a greedy piece tries one more character first
    and falls back to [k]; a lazy one tries [k] first. The result is the text
    left after the whole match. *)
Fixpoint rep (a : atom) (greedy : bool) (min : nat) (max : option nat)
    (k : pystr -> option pystr) (s : pystr) {struct s} : option pystr :=
  let stop := match min with O => k s | S _ => None end in
  match s with
  | c :: s' =>
      if atom_match a c && may_take max then
        let more := rep a greedy (Nat.pred min) (Nat.pred <$> max) k s' in
        match min with
        | O => if greedy then or_else more (k s) else or_else (k s) more
        | S _ => more
        end
      else stop
  | [] => stop
  end.

(** [re_match p s]: the pattern matched at the start of [s]; [Some r] when it
    matches, [r] being what follows the match. *)
Fixpoint re_match (p : pattern) (s : pystr) : option pystr :=
  match p with
  | [] => Some s
  | x :: p' => rep (p_atom x) (p_greedy x) (p_min x) (p_max x) (re_match p') s
  end.

(** [re.sub(p, repl, s)] for a pattern whose matches are never empty (all the
    patterns below start with a mandatory character): scan from the left,
    replace the match found at the current position and go on after it,
    otherwise copy one character. [fuel] bounds the number of steps; the
    length of the text is enough. *)
Fixpoint sub_from (p : pattern) (repl : pystr) (fuel : nat) (s : pystr) : pystr :=
  match fuel with
  | O => s
  | S fuel' =>
      match s with
      | [] => []
      | c :: s' =>
          match re_match p s with
          | Some r =>
              if (length r <? length s)%nat then repl ++ sub_from p repl fuel' r
              else c :: sub_from p repl fuel' s'
          | None => c :: sub_from p repl fuel' s'
          end
      end
  end.

Definition re_sub (p : pattern) (repl : pystr) (s : pystr) : pystr :=
  sub_from p repl (length s) s.

(** [str.strip()] with no argument. *)
Fixpoint lstrip (s : pystr) : pystr :=
  match s with
  | c :: s' => if is_space c then lstrip s' else s
  | [] => []
  end.

Fixpoint rstrip (s : pystr) : pystr :=
  match s with
  | c :: s' =>
      match rstrip s' with
      | [] => if is_space c then [] else [c]
      | r => c :: r
      end
  | [] => []
  end.

Definition strip (s : pystr) : pystr := rstrip (lstrip s).

(** ** The sanitizer (lines 40-46) *)

(** [\\an\d+\\?.*?] *)
Definition re_tag : pattern :=
  [ once (Lit BACKSLASH); once (Lit (ch "a")); once (Lit (ch "n"));
    plus Digit; opt (Lit BACKSLASH); lazy_star Dot ].

(** Line 42: one character of the class [punctuation]. *)
Definition re_punct : pattern := [ once (OneOf punctuation) ].

(** [\s{2,}] *)
Definition re_spaces : pattern := [ at_least 2 Space ].

(** [\n{2,}] *)
Definition re_newlines : pattern := [ at_least 2 (Lit NL) ].

(** [\d{2,}[:.]\d{2,}[:.]\d{2,}] *)
Definition re_timestamp : pattern :=
  [ at_least 2 Digit; once (OneOf [ch ":"; ch "."]);
    at_least 2 Digit; once (OneOf [ch ":"; ch "."]);
    at_least 2 Digit ].

Definition clean_transcript (text : pystr) : pystr :=
  let text := re_sub re_tag [] text in
  let text := re_sub re_punct [] text in
  let text := re_sub re_spaces [SPACE] text in
  let text := re_sub re_newlines [NL] text in
  let text := re_sub re_timestamp [] text in
  strip text.

(** * The HTTP service *)

(** ** Values, exceptions and the world *)

(** What [request.json()] can return. *)
#[local] Set Warnings "-register-all".
Inductive pyval :=
| PNone
| PBool (b : bool)
| PInt (z : Z)
| PFloat (f : spec_float)
| PStr (s : pystr)
| PList (l : list pyval)
| PDict (d : list (pystr * pyval)).

Definition bytes := list Byte.byte.

(** An exception: its class, the classes that class derives from, and the
    text [str(e)] gives. *)
Record exn := Exn {
  exn_class : pystr;
  exn_bases : list pystr;
  exn_text : pystr
}.

(** [isinstance(e, cls)] *)
Definition isinstance (e : exn) (cls : pystr) : bool :=
  bool_decide (cls ∈ exn_class e :: exn_bases e).

(** The built-in classes that the code meets, with their bases. *)
Definition Exception : pystr -> exn :=
  Exn (str "Exception") [str "BaseException"].

Definition TypeError : pystr -> exn :=
  Exn (str "TypeError") [str "Exception"; str "BaseException"].

Definition AttributeError : pystr -> exn :=
  Exn (str "AttributeError") [str "Exception"; str "BaseException"].

Definition KeyError : pystr -> exn :=
  Exn (str "KeyError") [str "LookupError"; str "Exception"; str "BaseException"].

Definition IndexError : pystr -> exn :=
  Exn (str "IndexError") [str "LookupError"; str "Exception"; str "BaseException"].

Definition FileNotFoundError : pystr -> exn :=
  Exn (str "FileNotFoundError")
    [str "OSError"; str "Exception"; str "BaseException"].

Definition UnicodeEncodeError : pystr -> exn :=
  Exn (str "UnicodeEncodeError")
    [str "UnicodeError"; str "ValueError"; str "Exception"; str "BaseException"].

Definition type_name (v : pyval) : pystr :=
  match v with
  | PNone => str "NoneType"
  | PBool _ => str "bool"
  | PInt _ => str "int"
  | PFloat _ => str "float"
  | PStr _ => str "str"
  | PList _ => str "list"
  | PDict _ => str "dict"
  end.

(** Truth value of an object, as [if not x] tests it. *)
Definition truthy (v : pyval) : bool :=
  match v with
  | PNone => false
  | PBool b => b
  | PInt z => negb (z =? 0)%Z
  | PFloat (S754_zero _) => false
  | PFloat _ => true
  | PStr s => negb (bool_decide (s = []))
  | PList l => match l with [] => false | _ => true end
  | PDict d => match d with [] => false | _ => true end
  end.

(** A dict as the list of its items; a key is looked up from the left. *)
Fixpoint assoc (key : pystr) (d : list (pystr * pyval)) : option pyval :=
  match d with
  | (k, v) :: d' => if bool_decide (k = key) then Some v else assoc key d'
  | [] => None
  end.

Definition quoted (s : pystr) : pystr := ch "'" :: s ++ [ch "'"].
Definition dquoted (s : pystr) : pystr := DQUOTE :: s ++ [DQUOTE].

(** [data.get(key, default)] *)
Definition py_get (data : pyval) (key : pystr) (default : pyval) : exn + pyval :=
  match data with
  | PDict d => inr (from_option id default (assoc key d))
  | _ => inl (AttributeError
                (quoted (type_name data) ++ str " object has no attribute 'get'"))
  end.

(** [left + right] where [right] is a [str]. *)
Definition add_to_str (left : pyval) (right : pystr) : exn + pystr :=
  match left with
  | PStr s => inr (s ++ right)
  | PList _ =>
      inl (TypeError
             (str "can only concatenate list (not " ++ dquoted (str "str")
              ++ str ") to list"))
  | _ =>
      inl (TypeError
             (str "unsupported operand type(s) for +: " ++ quoted (type_name left)
              ++ str " and 'str'"))
  end.

(** [left + right] where [left] is a [str]. *)
Definition str_add (left : pystr) (right : pyval) : exn + pystr :=
  match right with
  | PStr s => inr (left ++ s)
  | _ =>
      inl (TypeError
             (str "can only concatenate str (not " ++ dquoted (type_name right)
              ++ str ") to str"))
  end.

(** Decimal text of an integer, as an f-string prints it. *)
Definition str_of_Z (z : Z) : pystr := str (NilZero.string_of_int (Z.to_int z)).


(** An outbound call, with what is sent. Lines 50-55 (the service-account
    file, the token refresh, the client of the drive API) are one call. *)
Inductive Call :=
| ServiceAccountToken
| DriveFilesGet (file_id : pyval)
| RequestsGet (url : pystr) (headers : list (pystr * pystr))
| TranscriptionsCreate (model : pystr) (file : bytes)
    (response_format language : pystr)
| ChatCompletionsCreate (model : pystr) (messages : list (pystr * pystr))
    (temperature : pystr).

(** The temporary directory and the log of the outbound calls made so far. *)
Record World := {
  files : gmap (list N) bytes;
  calls : list Call
}.

(** The answer of [requests.get]. *)
Record Response := {
  status_code : Z;
  text : pystr;
  content : bytes
}.

(** A chat completion: [choices[i].message.content], [None] when absent. *)
Record ChatCompletion := { choices : list (option pystr) }.

(** What the external services answer: a value or an exception. *)
Record Services := {
  service_account_token : exn + pystr;
  drive_files_get : pyval -> exn + list (pystr * pyval);
  requests_get : pystr -> list (pystr * pystr) -> exn + Response;
  transcriptions_create : bytes -> exn + pyval;
  chat_completions_create : list (pystr * pystr) -> exn + ChatCompletion
}.

(** The request object, by what [await request.json()] gives: the parsed
    body, or the exception raised on a body that is not JSON. *)
Record Request := { request_json : exn + pyval }.

(** What a handler returns: a plain dict, which the framework renders and
    sends with status 200, or a [JSONResponse] that was built, and so
    rendered, inside the handler. *)
Inductive Reply :=
| Plain (body : pyval)
| JSONResponse (status : Z) (body : pyval).

Definition reply_status (r : Reply) : Z :=
  match r with
  | Plain _ => 200
  | JSONResponse status _ => status
  end.

Definition reply_body (r : Reply) : pyval :=
  match r with
  | Plain body => body
  | JSONResponse _ body => body
  end.

(** ** Computations: a state over the world, with exceptions *)

Definition M (A : Type) : Type := World -> (exn + A) * World.

Definition ret {A} (x : A) : M A := fun w => (inr x, w).

Definition raise {A} (e : exn) : M A := fun w => (inl e, w).

Definition bind {A B} (m : M A) (f : A -> M B) : M B :=
  fun w =>
    match m w with
    | (inr x, w') => f x w'
    | (inl e, w') => (inl e, w')
    end.

(** [try: m except Exception as e: h e]. The clause names a class: an
    exception that is not an instance of [Exception] passes it, and what the
    handler [h] raises is not caught again. *)
Definition try_except {A} (m : M A) (h : exn -> M A) : M A :=
  fun w =>
    match m w with
    | (inl e, w') =>
        if isinstance e (str "Exception") then h e w' else (inl e, w')
    | (inr x, w') => (inr x, w')
    end.

(** A step that may raise but does not touch the world. *)
Definition lift {A} (r : exn + A) : M A := fun w => (r, w).

(** An outbound call: logged, then answered. *)
Definition call {A} (c : Call) (answer : exn + A) : M A :=
  fun w => (answer, {| files := files w; calls := calls w ++ [c] |}).

Notation "'let*' x ':=' m 'in' k" := (bind m (fun x => k))
  (at level 10, x name, m at level 100, k at level 200).

(** ** The error replies *)

(** The surrogate code points, which UTF-8 cannot encode. *)
Definition is_surrogate (c : char) : bool := (55296 <=? c) && (c <=? 57343).

Definition hex_digit (n : N) : char :=
  nth (N.to_nat n) (str "0123456789abcdef") (ch "0").

(** [n] in four hexadecimal digits, for [n] below 65536. *)
Definition hex4 (n : N) : pystr :=
  [hex_digit (n / 4096 mod 16); hex_digit (n / 256 mod 16);
   hex_digit (n / 16 mod 16); hex_digit (n mod 16)].

(** A character of a string as [json.dumps] writes it when [ensure_ascii]
    is off: the quote, the backslash and the control characters are escaped,
    every other character stands for itself. *)
Definition json_char (c : char) : pystr :=
  if c =? DQUOTE then [BACKSLASH; DQUOTE]
  else if c =? BACKSLASH then [BACKSLASH; BACKSLASH]
  else if c =? 10 then str "\n"
  else if c =? 13 then str "\r"
  else if c =? 9 then str "\t"
  else if c =? 8 then str "\b"
  else if c =? 12 then str "\f"
  else if c <? 32 then str "\u" ++ hex4 c
  else [c].

Definition json_string (s : pystr) : pystr :=
  DQUOTE :: flat_map json_char s ++ [DQUOTE].

(** The content [{"error": message}] of the error replies, and its text:
    [json.dumps(content, ensure_ascii=False, allow_nan=False, indent=None,
    separators=(",", ":"))]. *)
Definition error_body (message : pystr) : pyval :=
  PDict [(str "error", PStr message)].

Definition json_dumps_error (message : pystr) : pystr :=
  str "{" ++ json_string (str "error") ++ str ":" ++ json_string message
  ++ str "}".

(** Number of surrogates at the head of [s]. *)
Fixpoint surrogate_run (s : pystr) : nat :=
  match s with
  | c :: s' => if is_surrogate c then S (surrogate_run s') else O
  | [] => O
  end.

(** The exception of [s.encode("utf-8")], if any: the encoder stops at the
    first surrogate, at index [i] counted from [start], and reports it with
    the surrogates that follow it. *)
Fixpoint encode_utf8_error (start : nat) (s : pystr) : option exn :=
  match s with
  | [] => None
  | c :: s' =>
      if is_surrogate c then
        Some (UnicodeEncodeError
                (match surrogate_run s' with
                 | O =>
                     str "'utf-8' codec can't encode character '\u" ++ hex4 c
                     ++ str "' in position " ++ str_of_Z (Z.of_nat start)
                 | S n =>
                     str "'utf-8' codec can't encode characters in position "
                     ++ str_of_Z (Z.of_nat start) ++ str "-"
                     ++ str_of_Z (Z.of_nat (start + S n))
                 end ++ str ": surrogates not allowed"))
      else encode_utf8_error (S start) s'
  end.

(** [JSONResponse(status_code=status, content={"error": message})]. The
    constructor renders the content at once, as
    [json.dumps(...).encode("utf-8")], and raises what the encoder raises. *)
Definition error_response (status : Z) (message : pystr) : M Reply :=
  match encode_utf8_error 0 (json_dumps_error message) with
  | Some e => raise e
  | None => ret (JSONResponse status (error_body message))
  end.

(** ** The helpers and the two handlers *)

(** Of the interpreter, its library and the file system under it: [repr] of
    a value, the root that [os.path.splitext] returns, [os.path.join] and
    [tempfile.gettempdir()]; the exception that [open(path, "wb")] raises,
    if any, and the one that [f.write(data)] raises, if any, with the number
    of bytes that reached the file before it. *)
Record Runtime := {
  repr : pyval -> pystr;
  splitext_root : pystr -> pystr;
  path_join : pystr -> pystr -> pystr;
  gettempdir : pystr;
  open_wb : pystr -> option exn;
  write_fault : pystr -> bytes -> option (exn * nat)
}.

Section Service.

Variable rt : Runtime.
Variable svc : Services.

(** [str(v)], as an f-string formats a value: a [str] is itself, any other
    value of a JSON body prints as its [repr]. *)
Definition py_str (v : pyval) : pystr :=
  match v with
  | PStr s => s
  | _ => repr rt v
  end.

(** Lines 67 and 68: [open(path, "wb")] creates the file or empties it,
    [f.write(data)] fills it, and the [with] block closes it, also when the
    write raises; the file then holds the bytes written so far. *)
Definition write_file (path : pystr) (data : bytes) : M unit :=
  fun w =>
    match open_wb rt path with
    | Some e => (inl e, w)
    | None =>
        match write_fault rt path data with
        | Some (e, n) =>
            (inl e, {| files := <[path := take n data]> (files w);
                       calls := calls w |})
        | None =>
            (inr tt, {| files := <[path := data]> (files w);
                        calls := calls w |})
        end
    end.

Definition file_not_found (path : pystr) : exn :=
  FileNotFoundError
    (str "[Errno 2] No such file or directory: " ++ repr rt (PStr path)).

(** [open(path, "rb")] *)
Definition read_file (path : pystr) : M bytes :=
  fun w =>
    match files w !! path with
    | Some data => (inr data, w)
    | None => (inl (file_not_found path), w)
    end.

(** [os.remove(path)] *)
Definition os_remove (path : pystr) : M unit :=
  fun w =>
    match files w !! path with
    | Some _ => (inr tt, {| files := delete path (files w); calls := calls w |})
    | None => (inl (file_not_found path), w)
    end.

(** [os.path.splitext(file_metadata['name'])[0]] *)
Definition metadata_file_name (file_metadata : list (pystr * pyval)) : exn + pystr :=
  match assoc (str "name") file_metadata with
  | None => inl (KeyError (str "'name'"))
  | Some (PStr name) => inr (splitext_root rt name)
  | Some v =>
      inl (TypeError
             (str "expected str, bytes or os.PathLike object, not " ++ type_name v))
  end.

Definition download_failed (response : Response) : exn :=
  Exception
    (str "Failed to download MP3: " ++ str_of_Z (status_code response)
     ++ str " - " ++ text response).

(** Lines 59 and 60. *)
Definition download_url (file_id : pyval) : pystr :=
  str "https://www.googleapis.com/drive/v3/files/" ++ py_str file_id
  ++ str "?alt=media".

Definition auth_headers (token : pystr) : list (pystr * pystr) :=
  [(str "Authorization", str "Bearer " ++ token)].

(** Lines 48-70. *)
Definition download_mp3_from_drive (file_id : pyval) : M pystr :=
  let* token := call ServiceAccountToken (service_account_token svc) in
  let* file_metadata := call (DriveFilesGet file_id) (drive_files_get svc file_id) in
  let* file_name := lift (metadata_file_name file_metadata) in
  let url := download_url file_id in
  let headers := auth_headers token in
  let* response := call (RequestsGet url headers) (requests_get svc url headers) in
  if negb (status_code response =? 200)%Z then
    raise (download_failed response)
  else
    let mp3_path := path_join rt (gettempdir rt) (file_name ++ str ".mp3") in
    let* _ := write_file mp3_path (content response) in
    ret mp3_path.

(** [re.sub] accepts only a string. *)
Definition clean_transcript_of (result : pyval) : exn + pystr :=
  match result with
  | PStr text => inr (clean_transcript text)
  | _ =>
      inl (TypeError
             (str "expected string or bytes-like object, got "
              ++ quoted (type_name result)))
  end.

(** Lines 72-81. *)
Definition transcribe_audio (mp3_path : pystr) : M pystr :=
  let* file := read_file mp3_path in
  let* result :=
    call (TranscriptionsCreate (str "whisper-1") file (str "text") (str "en"))
         (transcriptions_create svc file) in
  lift (clean_transcript_of result).

Definition transcript_separator : pystr := [NL; NL] ++ str "Transcript:" ++ [NL].

Definition chat_messages (full_input : pystr) : list (pystr * pystr) :=
  [ (str "system", str "You are an expert HR interview evaluator.");
    (str "user", full_input) ].

(** [response.choices[0].message.content.strip()] *)
Definition first_choice_text (response : ChatCompletion) : exn + pystr :=
  match choices response with
  | [] => inl (IndexError (str "list index out of range"))
  | None :: _ =>
      inl (AttributeError
             (str "'NoneType' object has no attribute 'strip'"))
  | Some c :: _ => inr (strip c)
  end.

(** Lines 83-94. *)
Definition generate_llm_report (prompt transcript : pyval) : M pystr :=
  let* with_label := lift (add_to_str prompt transcript_separator) in
  let* full_input := lift (str_add with_label transcript) in
  let* response :=
    call (ChatCompletionsCreate (str "gpt-4") (chat_messages full_input) (str "0.7"))
         (chat_completions_create svc (chat_messages full_input)) in
  lift (first_choice_text response).

(** Lines 98-114. *)
Definition transcribe_endpoint (request : Request) : M Reply :=
  try_except
    (let* data := lift (request_json request) in
     let* file_id := lift (py_get data (str "file_id") PNone) in
     if negb (truthy file_id) then
       error_response 400 (str "Missing file_id")
     else
       let* mp3_path := download_mp3_from_drive file_id in
       let* transcript := transcribe_audio mp3_path in
       let* _ := os_remove mp3_path in
       ret (Plain (PDict [(str "transcript", PStr (strip transcript))])))
    (fun e => error_response 500 (exn_text e)).

Definition default_prompt : pystr :=
  str "Evaluate the following interview transcript.".

(** Lines 116-131. *)
Definition generate_report_endpoint (request : Request) : M Reply :=
  try_except
    (let* data := lift (request_json request) in
     let* prompt := lift (py_get data (str "prompt") (PStr default_prompt)) in
     let* transcript := lift (py_get data (str "transcript") PNone) in
     if negb (truthy transcript) then
       error_response 400 (str "Missing transcript")
     else
       let* report := generate_llm_report prompt transcript in
       ret (Plain (PDict [(str "report", PStr report)])))
    (fun e => error_response 500 (exn_text e)).

End Service.

(** * Notions used in the statements *)

(** ** Of the sanitizer *)

(** Length of the longest prefix of [s] made of characters of [a], and what
    follows it. *)
Fixpoint run (a : atom) (s : pystr) : nat :=
  match s with
  | c :: s' => if atom_match a c then S (run a s') else O
  | [] => O
  end.

Fixpoint skip (a : atom) (s : pystr) : pystr :=
  match s with
  | c :: s' => if atom_match a c then skip a s' else s
  | [] => []
  end.

(** The first piece of the pattern is mandatory and made of [a]. *)
Definition head_atom (p : pattern) (a : atom) : Prop :=
  match p with
  | x :: _ => p_atom x = a /\ (0 < p_min x)%nat
  | [] => False
  end.

(** The text starts, or ends, with white space. *)
Definition starts_with_space (s : pystr) : bool :=
  match s with c :: _ => is_space c | [] => false end.

Fixpoint ends_with_space (s : pystr) : bool :=
  match s with
  | [] => false
  | [c] => is_space c
  | _ :: s' => ends_with_space s'
  end.

(** No two adjacent white-space characters. *)
Fixpoint no_space_pair (s : pystr) : bool :=
  match s with
  | a :: (b :: _) as t => negb (is_space a && is_space b) && no_space_pair t
  | _ => true
  end.

(** The optional backslash that may close a tag. *)
Definition drop_backslash (s : pystr) : pystr :=
  match s with
  | c :: s' => if c =? BACKSLASH then s' else s
  | [] => []
  end.

Definition starts_with_digit (s : pystr) : bool :=
  match s with c :: _ => is_digit c | [] => false end.

(** [p] matches at no position of [s]. *)
Definition no_match (p : pattern) (s : pystr) : Prop :=
  forall t, t `suffix_of` s -> re_match p t = None.

(** The text as it stands before line 45. *)
Definition before_timestamps (text : pystr) : pystr :=
  re_sub re_newlines [NL]
    (re_sub re_spaces [SPACE] (re_sub re_punct [] (re_sub re_tag [] text))).

(** The pattern of line 45, read from the left: a run of two or more
    digits, then what follows it; one separator, then what follows it. *)
Definition separators : list char := [ch ":"; ch "."].

Definition group_then (k : pystr -> option pystr) (s : pystr) : option pystr :=
  if (2 <=? run Digit s)%nat then k (skip Digit s) else None.

Definition sep_then (k : pystr -> option pystr) (s : pystr) : option pystr :=
  match s with
  | c :: s' => if mem c separators then k s' else None
  | [] => None
  end.

Definition timestamp_rest (s : pystr) : option pystr :=
  group_then (sep_then (group_then (sep_then (group_then Some)))) s.

(** ** Of the handlers *)

(** The status of the reply, when the handler returns one. *)
Definition status_after (m : M Reply) (w : World) : option Z :=
  match m w with
  | (inr r, _) => Some (reply_status r)
  | (inl _, _) => None
  end.

(** The text holds no surrogate code point. *)
Definition no_surrogate (s : pystr) : bool :=
  forallb (fun c => negb (is_surrogate c)) s.

(** An exception that the clause of lines 112 and 129 catches and whose
    text the 500 reply can carry. *)
Definition ordinary (e : exn) : bool :=
  isinstance e (str "Exception") && no_surrogate (exn_text e).

(** Every exception that the request, the services and the file system
    raise is ordinary, and so is the text of a refused download. *)
Definition ordinary_failures
    (rt : Runtime) (svc : Services) (request : Request) : Prop :=
  (forall e, request_json request = inl e -> ordinary e = true) /\
  (forall e, service_account_token svc = inl e -> ordinary e = true) /\
  (forall file_id e, drive_files_get svc file_id = inl e -> ordinary e = true) /\
  (forall url headers e,
      requests_get svc url headers = inl e -> ordinary e = true) /\
  (forall url headers response,
      requests_get svc url headers = inr response ->
      status_code response <> 200%Z ->
      no_surrogate (text response) = true) /\
  (forall path e, open_wb rt path = Some e -> ordinary e = true) /\
  (forall path data e n,
      write_fault rt path data = Some (e, n) -> ordinary e = true) /\
  (forall file e, transcriptions_create svc file = inl e -> ordinary e = true) /\
  (forall messages e,
      chat_completions_create svc messages = inl e -> ordinary e = true).

(** Exceptions for the examples: [asyncio.CancelledError], raised at an
    [await] when the request is cancelled, and an error of the language
    model whose text holds a surrogate. *)
Definition CancelledError : exn :=
  Exn (str "CancelledError") [str "BaseException"] [].

(** What [request.json()] raises on a body that is not JSON. *)
Definition JSONDecodeError : pystr -> exn :=
  Exn (str "JSONDecodeError")
    [str "ValueError"; str "Exception"; str "BaseException"].

Definition surrogate_failure : exn :=
  Exn (str "APIError") [str "Exception"; str "BaseException"]
    (str "Invalid input: " ++ [55357]).

(** A runtime and services for the examples: a POSIX-like [join], a
    [splitext] that cuts at the last dot of the name, a file system without
    faults, a drive that knows one file, [interview.mp3]. *)
Fixpoint cut_extension (name : pystr) : pystr :=
  match name with
  | c :: name' =>
      if (c =? ch ".") && negb (mem (ch ".") name') then []
      else c :: cut_extension name'
  | [] => []
  end.

Definition example_runtime : Runtime := {|
  repr := fun _ => str "<repr>";
  splitext_root := cut_extension;
  path_join := fun a b => a ++ str "/" ++ b;
  gettempdir := str "/tmp";
  open_wb := fun _ => None;
  write_fault := fun _ _ => None
|}.



Definition example_services (status : Z) (transcription : exn + pyval) : Services := {|
  service_account_token := inr (str "ya29.token");
  drive_files_get := fun _ => inr [(str "name", PStr (str "interview.mp3"))];
  requests_get := fun _ _ =>
    inr {| status_code := status; text := str "File not found"; content := [] |};
  transcriptions_create := fun _ => transcription;
  chat_completions_create := fun _ =>
    inr {| choices := [Some (str " A clear communicator. ")] |}
|}.

(** Services whose language model gives the answer [chat]. *)
Definition example_chat_services (chat : exn + ChatCompletion) : Services := {|
  service_account_token := inr (str "ya29.token");
  drive_files_get := fun _ => inr [(str "name", PStr (str "interview.mp3"))];
  requests_get := fun _ _ =>
    inr {| status_code := 200; text := []; content := [] |};
  transcriptions_create := fun _ => inr (PStr (str "Hello"));
  chat_completions_create := fun _ => chat
|}.

(** Services whose drive answers the metadata request with [file_metadata]. *)
Definition example_drive_services (file_metadata : list (pystr * pyval)) : Services := {|
  service_account_token := inr (str "ya29.token");
  drive_files_get := fun _ => inr file_metadata;
  requests_get := fun _ _ =>
    inr {| status_code := 200; text := []; content := [] |};
  transcriptions_create := fun _ => inr (PStr (str "Hello"));
  chat_completions_create := fun _ => inr {| choices := [] |}
|}.

Definition empty_world : World := {| files := ∅; calls := [] |}.

(** The request whose body is the JSON object [d]. *)
Definition json_request (d : list (pystr * pyval)) : Request :=
  {| request_json := inr (PDict d) |}.

(** * Properties of the sanitizer *)

(** ** Facts about the matcher *)

Section Matcher.

Implicit Types (a : atom) (k : pystr -> option pystr) (s r : pystr).

Lemma or_else_None {A} (x : option A) : or_else x None = x.
Proof. by destruct x. Qed.

Lemma skip_suffix a s : skip a s `suffix_of` s.
Proof.
  induction s as [|c s IH]; simpl; [done|].
  destruct (atom_match a c); [by apply suffix_cons_r | done].
Qed.

Lemma skip_length a s : (length (skip a s) + run a s = length s)%nat.
Proof.
  induction s as [|c s IH]; simpl; [done|].
  destruct (atom_match a c); simpl; lia.
Qed.

Lemma skip_head a c s r : skip a s = c :: r -> atom_match a c = false.
Proof.
  induction s as [|x s IH]; simpl; [done|].
  destruct (atom_match a x) eqn:E; [done | congruence].
Qed.

Lemma skip_app a ds s :
  Forall (fun c => atom_match a c = true) ds ->
  skip a (ds ++ s) = skip a s.
Proof. induction 1 as [|c ds Hc _ IH]; simpl; [done | by rewrite Hc]. Qed.

Lemma run_app a ds s :
  Forall (fun c => atom_match a c = true) ds ->
  run a (ds ++ s) = (length ds + run a s)%nat.
Proof. induction 1 as [|c ds Hc _ IH]; simpl; [done | by rewrite Hc, IH]. Qed.

Lemma skip_stop a s :
  match s with c :: _ => atom_match a c = false | [] => True end ->
  skip a s = s.
Proof. destruct s as [|c s]; simpl; [done | by intros ->]. Qed.

(** A piece with exactly one repetition. *)
Lemma rep_once a g k s :
  rep a g 1 (Some 1%nat) k s =
  match s with
  | c :: s' => if atom_match a c then k s' else None
  | [] => None
  end.
Proof.
  destruct s as [|c s]; simpl; [done|].
  rewrite andb_true_r. destruct (atom_match a c); [|done].
  destruct s as [|c' s]; simpl; [done|]. by rewrite andb_false_r.
Qed.

(** An optional character, greedy, before a continuation that cannot fail. *)
Lemma rep_opt a k s :
  (forall t, is_Some (k t)) ->
  rep a true 0 (Some 1%nat) k s =
  match s with
  | c :: s' => if atom_match a c then k s' else k s
  | [] => k s
  end.
Proof.
  intros Hk. destruct s as [|c s]; simpl; [done|].
  rewrite andb_true_r. destruct (atom_match a c); [|done].
  assert (rep a true 0 (Some 0%nat) k s = k s) as ->.
  { destruct s as [|c' s]; simpl; [done|]. by rewrite andb_false_r. }
  by destruct (Hk s) as [r ->].
Qed.

(** A lazy piece with no lower bound stops at once when what follows it
    matches: at the end of a pattern it matches the empty string. *)
Lemma rep_lazy_stop a max k s :
  is_Some (k s) -> rep a false 0 max k s = k s.
Proof.
  intros [r Hr]. destruct s as [|c s]; simpl; [done|].
  destruct (_ && _); [|done]. by rewrite Hr.
Qed.

(** A greedy unbounded piece takes the whole run of its characters when the
    continuation cannot fail, *)
Lemma rep_greedy_total a min k s :
  (forall t, is_Some (k t)) ->
  rep a true min None k s =
  if (min <=? run a s)%nat then k (skip a s) else None.
Proof.
  intros Hk. revert min. induction s as [|c s IH]; intros min; simpl.
  { by destruct min. }
  rewrite andb_true_r. destruct (atom_match a c) eqn:Hc.
  - rewrite IH. destruct min as [|m]; simpl; [|done].
    by destruct (Hk (skip a s)) as [r ->].
  - by destruct min.
Qed.

(** and also when the continuation refuses every text that starts with one
    of its characters: giving a character back never helps. *)
Lemma rep_greedy_reject a min k s :
  (forall c t, atom_match a c = true -> k (c :: t) = None) ->
  rep a true min None k s =
  if (min <=? run a s)%nat then k (skip a s) else None.
Proof.
  intros Hk. revert min. induction s as [|c s IH]; intros min; simpl.
  { by destruct min. }
  rewrite andb_true_r. destruct (atom_match a c) eqn:Hc.
  - rewrite IH. destruct min as [|m]; simpl; [|done].
    by rewrite (Hk c s Hc), or_else_None.
  - by destruct min.
Qed.

(** What a match leaves is a suffix of the text. *)
Lemma rep_suffix a g min max k s r :
  (forall t u, k t = Some u -> u `suffix_of` t) ->
  rep a g min max k s = Some r -> r `suffix_of` s.
Proof.
  intros Hk. revert min max. induction s as [|c s IH]; intros min max; simpl.
  { destruct min; [apply Hk | done]. }
  destruct (_ && _).
  - assert (forall o, o = Some r ->
              o = rep a g (Nat.pred min) (Nat.pred <$> max) k s ->
              r `suffix_of` c :: s) as Hmore.
    { intros o -> Ho. apply suffix_cons_r. symmetry in Ho. eauto. }
    destruct min as [|m]; [|by eauto].
    destruct g; unfold or_else;
      destruct (rep a _ _ _ k s) eqn:E1; destruct (k (c :: s)) eqn:E2;
      intros [= <-]; eauto; apply suffix_cons_r; eauto.
  - destruct min; [apply Hk | done].
Qed.

Lemma re_match_suffix p s r : re_match p s = Some r -> r `suffix_of` s.
Proof.
  revert s r. induction p as [|x p IH]; simpl; intros s r.
  - by intros [= ->].
  - apply rep_suffix. apply IH.
Qed.

(** A pattern whose first piece is mandatory matches only a text that starts
    with a character of that piece. *)
Lemma re_match_head p a s r :
  head_atom p a -> re_match p s = Some r ->
  exists c s', s = c :: s' /\ atom_match a c = true.
Proof.
  destruct p as [|x p]; simpl; [done|]. intros [<- Hmin].
  destruct (p_min x) as [|m]; [lia|].
  destruct s as [|c s]; simpl; [done|].
  destruct (atom_match (p_atom x) c) eqn:Hc; simpl; [eauto | done].
Qed.

Lemma re_match_shorter p a s r :
  head_atom p a -> re_match p s = Some r -> (length r < length s)%nat.
Proof.
  destruct p as [|x p]; simpl; [done|]. intros [<- Hmin].
  destruct (p_min x) as [|m]; [lia|].
  destruct s as [|c s]; simpl; [done|].
  destruct (_ && _); [|done].
  intros Hr. apply rep_suffix in Hr; [|apply re_match_suffix].
  apply suffix_length in Hr. lia.
Qed.

End Matcher.

(** ** Facts about substitution *)

Section Substitution.

Variables (p : pattern) (repl : pystr).

(** More fuel than the length of the text changes nothing. *)
Lemma sub_from_enough fuel s :
  (length s <= fuel)%nat -> sub_from p repl fuel s = re_sub p repl s.
Proof.
  unfold re_sub. remember (length s) as n eqn:Hn.
  revert fuel s Hn. induction n as [n IH] using lt_wf_ind.
  intros fuel s -> Hle.
  destruct s as [|c s]; [by destruct fuel|].
  destruct fuel as [|fuel]; simpl in *; [lia|].
  destruct (re_match p (c :: s)) as [r|] eqn:Hm.
  - destruct (length r <? S (length s))%nat eqn:Hlt.
    + apply Nat.ltb_lt in Hlt.
      rewrite (IH (length r)) by (done || lia).
      by rewrite (IH (length r) ltac:(lia) (length s) r) by (done || lia).
    + by rewrite (IH (length s)) by (done || lia).
  - by rewrite (IH (length s)) by (done || lia).
Qed.

Lemma re_sub_nil : re_sub p repl [] = [].
Proof. done. Qed.

(** The equation the scan obeys. *)
Lemma re_sub_cons c s :
  re_sub p repl (c :: s) =
  match re_match p (c :: s) with
  | Some r =>
      if (length r <? length (c :: s))%nat then repl ++ re_sub p repl r
      else c :: re_sub p repl s
  | None => c :: re_sub p repl s
  end.
Proof.
  unfold re_sub at 1. simpl.
  destruct (re_match p (c :: s)) as [r|] eqn:Hm.
  - destruct (length r <? S (length s))%nat eqn:Hlt.
    + apply Nat.ltb_lt in Hlt. by rewrite sub_from_enough by lia.
    + done.
  - done.
Qed.

Lemma re_sub_copy c s :
  re_match p (c :: s) = None -> re_sub p repl (c :: s) = c :: re_sub p repl s.
Proof. intros H. by rewrite re_sub_cons, H. Qed.

Lemma re_sub_replace c s r :
  re_match p (c :: s) = Some r -> (length r < length (c :: s))%nat ->
  re_sub p repl (c :: s) = repl ++ re_sub p repl r.
Proof.
  intros H Hlt. rewrite re_sub_cons, H.
  by apply Nat.ltb_lt in Hlt as ->.
Qed.

(** Induction along the scan: the text and the result together. *)
Lemma re_sub_ind (P : pystr -> pystr -> Prop) :
  P [] [] ->
  (forall c s,
      (forall r, re_match p (c :: s) = Some r ->
                 (length (c :: s) <= length r)%nat) ->
      P s (re_sub p repl s) -> P (c :: s) (c :: re_sub p repl s)) ->
  (forall c s r,
      re_match p (c :: s) = Some r -> (length r < length (c :: s))%nat ->
      P r (re_sub p repl r) -> P (c :: s) (repl ++ re_sub p repl r)) ->
  forall s, P s (re_sub p repl s).
Proof.
  intros Hnil Hcopy Hrepl s.
  remember (length s) as n eqn:Hn. revert s Hn.
  induction n as [n IH] using lt_wf_ind. intros s ->.
  destruct s as [|c s]; [done|].
  rewrite re_sub_cons.
  destruct (re_match p (c :: s)) as [r|] eqn:Hm.
  - destruct (length r <? length (c :: s))%nat eqn:Hlt.
    + apply Nat.ltb_lt in Hlt. eapply Hrepl; eauto.
    + apply Nat.ltb_ge in Hlt. apply Hcopy.
      * intros r' Hr'. rewrite Hm in Hr'. by injection Hr' as <-.
      * eapply IH; [|done]. simpl. lia.
  - apply Hcopy; [congruence|]. eapply IH; [|done]. simpl. lia.
Qed.

(** Every character of the result comes from the text or the replacement. *)
Lemma re_sub_elem c s :
  c ∈ re_sub p repl s -> c ∈ s \/ c ∈ repl.
Proof.
  revert c. apply (re_sub_ind (fun s out => forall c, c ∈ out -> c ∈ s \/ c ∈ repl)).
  - by left.
  - intros x t _ IH c [->|Hc]%elem_of_cons.
    + left. apply elem_of_cons. by left.
    + destruct (IH c Hc); [left; apply elem_of_cons; by right | by right].
  - intros x t r Hm _ IH c [Hc|Hc]%elem_of_app; [by right|].
    destruct (IH c Hc) as [Hr|]; [left | by right].
    apply re_match_suffix in Hm as [m ->].
    apply elem_of_app. by right.
Qed.

(** The result is never longer than the text when the replacement is at
    most one character. *)
Lemma re_sub_length s :
  (length repl <= 1)%nat -> (length (re_sub p repl s) <= length s)%nat.
Proof.
  intros Hrepl.
  apply (re_sub_ind (fun s out => (length out <= length s)%nat)); simpl.
  - done.
  - intros; lia.
  - intros c t r _ Hlt IH. rewrite length_app. simpl in *. lia.
Qed.

(** Nothing to replace: the text has no place where the pattern matches. *)
Lemma re_sub_none s :
  (forall t, t `suffix_of` s -> re_match p t = None) -> re_sub p repl s = s.
Proof.
  induction s as [|c s IH]; intros H; [done|].
  rewrite re_sub_copy by (apply H; done).
  f_equal. apply IH. intros t Ht. apply H. by apply suffix_cons_r.
Qed.

(** A text without any character that can start a match is left as it is,
    and a prefix without such characters is copied. *)
Lemma re_sub_app_no_head a pre s :
  head_atom p a ->
  Forall (fun c => atom_match a c = false) pre ->
  re_sub p repl (pre ++ s) = pre ++ re_sub p repl s.
Proof.
  intros Hh. induction 1 as [|c pre Hc _ IH]; simpl; [done|].
  rewrite re_sub_copy, IH; [done|].
  destruct (re_match p (c :: pre ++ s)) as [r|] eqn:Hm; [|done].
  destruct (re_match_head _ _ _ _ Hh Hm) as (c' & s' & [= <- <-] & Hc').
  congruence.
Qed.

Lemma re_sub_no_head a s :
  head_atom p a ->
  Forall (fun c => atom_match a c = false) s ->
  re_sub p repl s = s.
Proof.
  intros Hh Hs. rewrite <- (app_nil_r s) at 1.
  rewrite (re_sub_app_no_head a) by done. by rewrite re_sub_nil, app_nil_r.
Qed.

End Substitution.

(** ** The steps of the sanitizer, one by one *)

Lemma mem_spec c cs : mem c cs = true <-> c ∈ cs.
Proof.
  unfold mem. rewrite existsb_exists. split.
  - intros (x & Hx & ->%N.eqb_eq). by apply list_elem_of_In.
  - intros H. exists c. split; [by apply list_elem_of_In | apply N.eqb_refl].
Qed.

Lemma mem_false c cs : mem c cs = false <-> c ∉ cs.
Proof.
  rewrite <- mem_spec. destruct (mem c cs); split; congruence.
Qed.

(** *** [strip] *)

Lemma lstrip_skip s : lstrip s = skip Space s.
Proof. induction s as [|c s IH]; simpl; [done | by rewrite IH]. Qed.

Lemma lstrip_suffix s : lstrip s `suffix_of` s.
Proof. rewrite lstrip_skip. apply skip_suffix. Qed.

Lemma rstrip_prefix s : rstrip s `prefix_of` s.
Proof.
  induction s as [|c s IH]; simpl; [done|].
  destruct (rstrip s) as [|x r] eqn:E.
  - destruct (is_space c); [apply prefix_nil | apply prefix_cons, prefix_nil].
  - by apply prefix_cons.
Qed.

Lemma strip_elem c s : c ∈ strip s -> c ∈ s.
Proof.
  unfold strip. intros H.
  destruct (rstrip_prefix (lstrip s)) as [k Hk].
  destruct (lstrip_suffix s) as [m ->].
  apply elem_of_app. right. rewrite Hk. apply elem_of_app. by left.
Qed.

Lemma strip_length s : (length (strip s) <= length s)%nat.
Proof.
  unfold strip.
  etransitivity; [apply prefix_length, rstrip_prefix|].
  apply suffix_length, lstrip_suffix.
Qed.

Lemma lstrip_id s : starts_with_space s = false -> lstrip s = s.
Proof. destruct s as [|c s]; simpl; [done | by intros ->]. Qed.

Lemma rstrip_nil s : rstrip s = [] -> s = [] \/ ends_with_space s = true.
Proof.
  induction s as [|c s IH]; simpl; [by left|]. right.
  destruct (rstrip s) as [|x r] eqn:E; [|done].
  destruct (is_space c) eqn:Hc; [|done].
  destruct (IH eq_refl) as [->|Hs]; [done|]. by destruct s.
Qed.

Lemma rstrip_id s : ends_with_space s = false -> rstrip s = s.
Proof.
  induction s as [|c s IH]; [done|]. intros H.
  destruct s as [|x s]; [simpl in *; by rewrite H|].
  change (ends_with_space (x :: s) = false) in H.
  change (rstrip (c :: x :: s)) with
    (match rstrip (x :: s) with
     | [] => if is_space c then [] else [c]
     | r => c :: r
     end).
  by rewrite IH.
Qed.

Lemma rstrip_ends s : ends_with_space (rstrip s) = false.
Proof.
  induction s as [|c s IH]; simpl; [done|].
  destruct (rstrip s) as [|x r] eqn:E.
  - destruct (is_space c) eqn:Hc; simpl; [done | by rewrite Hc].
  - done.
Qed.

Lemma rstrip_starts s :
  starts_with_space s = false -> starts_with_space (rstrip s) = false.
Proof.
  destruct s as [|c s]; simpl; [done|]. intros Hc.
  destruct (rstrip s); [by rewrite Hc | done].
Qed.

Lemma lstrip_starts s : starts_with_space (lstrip s) = false.
Proof.
  induction s as [|c s IH]; simpl; [done|].
  destruct (is_space c) eqn:Hc; [done | by simpl; rewrite Hc].
Qed.

Lemma strip_stripped s :
  starts_with_space (strip s) = false /\ ends_with_space (strip s) = false.
Proof.
  unfold strip. split; [apply rstrip_starts, lstrip_starts | apply rstrip_ends].
Qed.

Lemma strip_id s :
  starts_with_space s = false -> ends_with_space s = false -> strip s = s.
Proof. intros H1 H2. unfold strip. by rewrite lstrip_id, rstrip_id. Qed.

(** *** Line 42: the punctuation class *)

Lemma re_match_punct s :
  re_match re_punct s =
  match s with
  | c :: s' => if mem c punctuation then Some s' else None
  | [] => None
  end.
Proof. unfold re_punct, once. simpl. by rewrite rep_once. Qed.

Lemma re_sub_punct_elem c s :
  c ∈ re_sub re_punct [] s -> c ∉ punctuation.
Proof.
  revert c.
  apply (re_sub_ind re_punct [] (fun _ out => forall c, c ∈ out -> c ∉ punctuation)).
  - intros c Hc. by apply elem_of_nil in Hc.
  - intros x t Hno IH c [->|Hc]%elem_of_cons; [|by apply IH].
    apply mem_false. destruct (mem x punctuation) eqn:Hx; [|done].
    specialize (Hno t). rewrite re_match_punct, Hx in Hno.
    specialize (Hno eq_refl). simpl in Hno. lia.
  - intros x t r _ _ IH c Hc. by apply IH.
Qed.

Lemma head_punct : head_atom re_punct (OneOf punctuation).
Proof. split; [done | simpl; lia]. Qed.

Lemma head_tag : head_atom re_tag (Lit BACKSLASH).
Proof. split; [done | simpl; lia]. Qed.

Lemma head_spaces : head_atom re_spaces Space.
Proof. split; [done | simpl; lia]. Qed.

Lemma head_newlines : head_atom re_newlines (Lit NL).
Proof. split; [done | simpl; lia]. Qed.

Lemma head_timestamp : head_atom re_timestamp Digit.
Proof. split; [done | simpl; lia]. Qed.

(** The matches of the five patterns are never empty, as [re_sub] expects. *)
Lemma matches_not_empty p s r :
  p ∈ [re_tag; re_punct; re_spaces; re_newlines; re_timestamp] ->
  re_match p s = Some r -> (length r < length s)%nat.
Proof.
  rewrite !elem_of_cons, elem_of_nil.
  intros [->|[->|[->|[->|[->|[]]]]]];
    eauto using re_match_shorter, head_tag, head_punct, head_spaces,
      head_newlines, head_timestamp.
Qed.

(** ** Punctuation never reaches the output *)

Lemma clean_transcript_elem c text :
  c ∈ clean_transcript text -> c ∉ punctuation.
Proof.
  intros Hc. unfold clean_transcript in Hc.
  apply strip_elem in Hc.
  apply re_sub_elem in Hc as [Hc|Hc]; [|by apply elem_of_nil in Hc].
  apply re_sub_elem in Hc as [Hc|Hc].
  - apply re_sub_elem in Hc as [Hc|Hc].
    + by apply re_sub_punct_elem in Hc.
    + apply list_elem_of_singleton in Hc as ->. by apply mem_false.
  - apply list_elem_of_singleton in Hc as ->. by apply mem_false.
Qed.

(** C8. Whatever the input, none of the seventeen characters occurs in
    the output of [clean_transcript]: hyphen, en dash (U+2013, 8211), em
    dash (U+2014, 8212), underscore, equals, asterisk, hash, the two braces,
    the two angle brackets, the two square brackets, double quote (34),
    single quote, backtick, pipe. *)
Theorem clean_transcript_no_punctuation (text : pystr) :
  Forall (fun c => c ∉ clean_transcript text)
    [ch "-"; 8211; 8212; ch "_"; ch "="; ch "*"; ch "#"; ch "{"; ch "}";
     ch "<"; ch ">"; ch "["; ch "]"; 34; ch "'"; ch "`"; ch "|"].
Proof.
  apply Forall_forall. intros c Hc Hout.
  apply clean_transcript_elem in Hout. apply Hout. exact Hc.
Qed.

(** ** Lines 43 and 44: runs of white space *)

Lemma re_match_at_least_2 a s :
  re_match [at_least 2 a] s =
  if (2 <=? run a s)%nat then Some (skip a s) else None.
Proof.
  unfold at_least. simpl. rewrite rep_greedy_total; [done|].
  intros t. by eexists.
Qed.

Lemma no_space_pair_cons c s :
  no_space_pair (c :: s) = true ->
  no_space_pair s = true /\ (is_space c = true -> starts_with_space s = false).
Proof.
  destruct s as [|b s]; [done|].
  change (no_space_pair (c :: b :: s)) with
    (negb (is_space c && is_space b) && no_space_pair (b :: s)).
  intros [H1 H2]%andb_true_iff. split; [done|].
  intros Hc. rewrite Hc in H1. simpl in *. by destruct (is_space b).
Qed.

Lemma no_space_pair_intro c s :
  no_space_pair s = true ->
  (is_space c = true -> starts_with_space s = false) ->
  no_space_pair (c :: s) = true.
Proof.
  destruct s as [|b s]; [done|]. intros Hs Hc.
  change (no_space_pair (c :: b :: s)) with
    (negb (is_space c && is_space b) && no_space_pair (b :: s)).
  rewrite Hs, andb_true_r. simpl in Hc.
  destruct (is_space c); [by rewrite Hc | done].
Qed.

Lemma no_space_pair_app s1 s2 :
  no_space_pair (s1 ++ s2) = true ->
  no_space_pair s1 = true /\ no_space_pair s2 = true.
Proof.
  induction s1 as [|c s1 IH]; simpl app; [done|].
  intros [H1 H2]%no_space_pair_cons. destruct (IH H1) as [H3 H4].
  split; [|done]. apply no_space_pair_intro; [done|].
  intros Hc. specialize (H2 Hc). by destruct s1.
Qed.

Lemma no_space_pair_run s :
  no_space_pair s = true -> (run Space s <= 1)%nat.
Proof.
  intros Hs. destruct s as [|c s]; [simpl; lia|].
  apply no_space_pair_cons in Hs as [_ H].
  simpl. destruct (is_space c) eqn:Hc; [|lia].
  specialize (H eq_refl).
  destruct s as [|b s]; simpl in *; [lia | rewrite H; lia].
Qed.

Lemma is_space_NL c : (c =? NL) = true -> is_space c = true.
Proof. by intros ->%N.eqb_eq. Qed.

Lemma run_NL_le s : (run (Lit NL) s <= run Space s)%nat.
Proof.
  induction s as [|c s IH]; simpl; [lia|].
  destruct (c =? NL) eqn:Hc; [|lia].
  rewrite (is_space_NL _ Hc). lia.
Qed.

(** A text without adjacent white space is left alone by both steps. *)
Lemma re_sub_spaces_id repl s :
  no_space_pair s = true -> re_sub re_spaces repl s = s.
Proof.
  intros Hs. apply re_sub_none. intros t [m ->].
  apply no_space_pair_app in Hs as [_ Ht]. apply no_space_pair_run in Ht.
  unfold re_spaces. rewrite re_match_at_least_2.
  destruct (2 <=? run Space t)%nat eqn:E; [|done].
  apply Nat.leb_le in E. lia.
Qed.

Lemma re_sub_newlines_id repl s :
  no_space_pair s = true -> re_sub re_newlines repl s = s.
Proof.
  intros Hs. apply re_sub_none. intros t [m ->].
  apply no_space_pair_app in Hs as [_ Ht]. apply no_space_pair_run in Ht.
  unfold re_newlines. rewrite re_match_at_least_2.
  destruct (2 <=? run (Lit NL) t)%nat eqn:E; [|done].
  apply Nat.leb_le in E. pose proof (run_NL_le t). lia.
Qed.

(** After line 43 no two white-space characters are adjacent. *)
Lemma re_sub_spaces_no_pair s :
  no_space_pair (re_sub re_spaces [SPACE] s) = true.
Proof.
  cut (no_space_pair (re_sub re_spaces [SPACE] s) = true /\
       (starts_with_space (re_sub re_spaces [SPACE] s) = true ->
        starts_with_space s = true)); [by intros []|].
  apply (re_sub_ind re_spaces [SPACE] (fun s out =>
    no_space_pair out = true /\
    (starts_with_space out = true -> starts_with_space s = true))).
  - done.
  - intros c t Hno [IH1 IH2]. split; [|done].
    apply no_space_pair_intro; [done|]. intros Hc.
    destruct (starts_with_space (re_sub re_spaces [SPACE] t)) eqn:E; [|done].
    specialize (IH2 eq_refl). destruct t as [|b t]; [done|]. simpl in IH2.
    specialize (Hno (skip Space (c :: b :: t))).
    unfold re_spaces in Hno. rewrite re_match_at_least_2 in Hno.
    simpl in Hno. rewrite Hc, IH2 in Hno. simpl in Hno.
    specialize (Hno eq_refl).
    pose proof (suffix_length _ _ (skip_suffix Space t)). lia.
  - intros c t r Hm _ [IH1 IH2].
    unfold re_spaces in Hm. rewrite re_match_at_least_2 in Hm.
    destruct (2 <=? run Space (c :: t))%nat eqn:E; [|done].
    assert (skip Space (c :: t) = r) as Hr by congruence. clear Hm. split.
    + apply no_space_pair_intro; [done|]. intros _.
      destruct (starts_with_space (re_sub _ _ _)) eqn:E2; [|done].
      specialize (IH2 eq_refl). destruct r as [|x r]; [done|].
      apply skip_head in Hr. simpl in IH2, Hr. congruence.
    + intros _. simpl in *. by destruct (is_space c).
Qed.



(** ** Line 41: the override tag *)

Lemma re_match_once a p s :
  re_match (once a :: p) s =
  match s with
  | c :: s' => if atom_match a c then re_match p s' else None
  | [] => None
  end.
Proof. unfold once. simpl. apply rep_once. Qed.

(** The lazy [.*?] that ends the pattern matches nothing. *)
Lemma re_match_lazy_tail t : re_match [lazy_star Dot] t = Some t.
Proof. unfold lazy_star. simpl. by rewrite rep_lazy_stop. Qed.

Lemma re_match_tag_tail t :
  re_match [opt (Lit BACKSLASH); lazy_star Dot] t = Some (drop_backslash t).
Proof.
  change (re_match [opt (Lit BACKSLASH); lazy_star Dot] t) with
    (rep (Lit BACKSLASH) true 0 (Some 1%nat) (re_match [lazy_star Dot]) t).
  rewrite rep_opt by (intros u; rewrite re_match_lazy_tail; by eexists).
  destruct t as [|c t]; [apply re_match_lazy_tail|].
  unfold drop_backslash. cbn [atom_match].
  destruct (c =? BACKSLASH); apply re_match_lazy_tail.
Qed.

(** The pattern of line 41 at the start of a text: backslash, [a], [n], a
    run of one or more digits, and one backslash if it is there; nothing of
    what follows is part of the match. *)
Lemma re_match_tag s :
  re_match re_tag s =
  match s with
  | c1 :: c2 :: c3 :: s1 =>
      if (c1 =? BACKSLASH) && (c2 =? ch "a") && (c3 =? ch "n")
         && (1 <=? run Digit s1)%nat
      then Some (drop_backslash (skip Digit s1))
      else None
  | _ => None
  end.
Proof.
  unfold re_tag.
  destruct s as [|c1 s]; [done|]. rewrite re_match_once. cbn [atom_match].
  destruct s as [|c2 s]. { by destruct (c1 =? BACKSLASH). }
  rewrite re_match_once. cbn [atom_match].
  destruct s as [|c3 s1].
  { destruct (c1 =? BACKSLASH); [|done]. by destruct (c2 =? ch "a"). }
  rewrite re_match_once. cbn [atom_match].
  destruct (c1 =? BACKSLASH); [|done].
  destruct (c2 =? ch "a"); [|done].
  destruct (c3 =? ch "n"); [|done].
  change (re_match (plus Digit :: ?p) s1) with
    (rep Digit true 1 None (re_match p) s1).
  rewrite rep_greedy_total
    by (intros u; rewrite re_match_tag_tail; by eexists).
  simpl andb. by rewrite re_match_tag_tail.
Qed.

Lemma skip_digits ds rest :
  Forall (fun c => is_digit c = true) ds ->
  starts_with_digit rest = false ->
  skip Digit (ds ++ rest) = rest.
Proof.
  intros Hds Hrest. rewrite skip_app by done.
  apply skip_stop. by destruct rest.
Qed.

(** ** Texts in which a pattern matches nowhere *)

Section NoMatch.

Implicit Types (a : atom) (k : pystr -> option pystr) (s t w : pystr).

Lemma or_else_some_l {A} (x y : option A) : is_Some x -> is_Some (or_else x y).
Proof. by intros [u ->]. Qed.

Lemma or_else_some_r {A} (x y : option A) : is_Some y -> is_Some (or_else x y).
Proof. intros [u ->]. destruct x; by eexists. Qed.

Lemma or_else_is_some {A} (x y : option A) :
  is_Some (or_else x y) -> is_Some x \/ is_Some y.
Proof. destruct x; [left; by eexists | by right]. Qed.

Lemma rep_min0_some a g max k s :
  is_Some (k s) -> is_Some (rep a g 0 max k s).
Proof.
  intros Hk. destruct s as [|c s]; simpl; [done|].
  destruct (_ && _); [|done].
  destruct g; [by apply or_else_some_r | by apply or_else_some_l].
Qed.

(** A match at the start of a text is still there when the text goes on. *)
Lemma rep_extend a g min max k s w :
  (forall t, is_Some (k t) -> is_Some (k (t ++ w))) ->
  is_Some (rep a g min max k s) -> is_Some (rep a g min max k (s ++ w)).
Proof.
  intros Hk. revert min max. induction s as [|c s IH]; intros min max.
  - simpl. destruct min; [|by intros []]. intros H.
    apply rep_min0_some. by apply (Hk []).
  - simpl. destruct (_ && _).
    + destruct min as [|m]; [|apply IH].
      specialize (IH 0%nat (Nat.pred <$> max)). simpl in IH.
      specialize (Hk (c :: s)). simpl in Hk.
      destruct g; intros [H|H]%or_else_is_some;
        auto using or_else_some_l, or_else_some_r.
    + destruct min; [apply (Hk (c :: s)) | done].
Qed.

Lemma re_match_extend p s w :
  is_Some (re_match p s) -> is_Some (re_match p (s ++ w)).
Proof.
  revert s. induction p as [|x p IH]; intros s; simpl; [by eexists|].
  apply rep_extend. apply IH.
Qed.

Lemma no_match_app p s1 s2 :
  no_match p (s1 ++ s2) -> no_match p s1 /\ no_match p s2.
Proof.
  intros H. split; intros t [m ->].
  - destruct (re_match p t) as [r|] eqn:E; [|done].
    assert (is_Some (re_match p (t ++ s2))) as [u Hu].
    { apply re_match_extend. by eexists. }
    rewrite H in Hu; [done|]. exists m. by rewrite app_assoc.
  - apply H. exists (s1 ++ m). by rewrite app_assoc.
Qed.

(** The scan changes nothing exactly when there is nothing to delete. *)
Lemma re_sub_fixed p a s :
  head_atom p a -> re_sub p [] s = s -> no_match p s.
Proof.
  intros Hh. induction s as [|c s IH]; intros Hs t Ht.
  - apply suffix_nil_inv in Ht as ->.
    destruct (re_match p []) as [r|] eqn:E; [|done].
    by destruct (re_match_head _ _ _ _ Hh E) as (? & ? & ? & _).
  - rewrite re_sub_cons in Hs.
    destruct (re_match p (c :: s)) as [r|] eqn:E.
    + pose proof (re_match_shorter _ _ _ _ Hh E) as Hlt.
      apply Nat.ltb_lt in Hlt as Hlt'. rewrite Hlt' in Hs.
      pose proof (re_sub_length p [] r ltac:(simpl; lia)) as Hlen.
      simpl in Hs. rewrite Hs in Hlen. lia.
    + injection Hs as Hs.
      destruct Ht as [[|x m] Hm]; simpl in Hm; [by subst|].
      injection Hm as _ Hm. apply IH; [done | by exists m].
Qed.

End NoMatch.

(** ** Idempotence *)

Lemma clean_transcript_unfold text :
  clean_transcript text =
  strip (re_sub re_timestamp [] (before_timestamps text)).
Proof. done. Qed.





(** A backslash is a second way out of idempotence: the hyphen that line 42
    deletes from [\a-n1] leaves the tag [\an1], which line 41 has already
    passed; the next pass deletes it. *)
Lemma clean_transcript_tag_formed :
  clean_transcript (str "\a-n1") = str "\an1" /\
  clean_transcript (str "\an1") = [].
Proof. vm_compute. done. Qed.



(** C2. Runs that survive the sanitizer. A run of newlines is replaced by
    one space on line 43, before line 44 can turn it into one newline; and a
    timestamp removed on line 45, after the runs were collapsed, leaves the
    spaces (or the newlines) around it adjacent. *)
Lemma clean_transcript_runs_left :
  clean_transcript [ch "a"; NL; NL; ch "b"] = str "a b" /\
  clean_transcript (str "a 00:01:23 b") = str "a  b" /\
  clean_transcript ([ch "a"; NL] ++ str "00:01:23" ++ [NL; ch "b"]) =
  [ch "a"; NL; NL; ch "b"] /\
  clean_transcript
    (str "Hello   world" ++ [NL; NL; NL] ++ str "Time: 00:01:23 end") =
  str "Hello world Time:  end".
Proof. vm_compute. done. Qed.

(** What line 41 does with a tag: in a text [pre ++ \an ++ ds ++ rest], with
    no backslash in [pre], [ds] a non-empty run of digits and [rest] not
    starting with a digit, the backslash, [an], the digits and one more
    backslash when it is there are deleted; [pre] is kept and the scan goes
    on with [rest] less its leading backslash. *)
Lemma re_sub_tag_rest (pre ds rest : pystr) :
  BACKSLASH ∉ pre ->
  ds <> [] ->
  Forall (fun c => is_digit c = true) ds ->
  starts_with_digit rest = false ->
  re_sub re_tag [] (pre ++ str "\an" ++ ds ++ rest) =
  pre ++ re_sub re_tag [] (drop_backslash rest).
Proof.
  intros Hpre Hne Hds Hrest.
  rewrite (re_sub_app_no_head re_tag [] (Lit BACKSLASH)); [|apply head_tag|].
  2:{ apply Forall_forall. intros c Hc. simpl. apply N.eqb_neq.
      intros ->. done. }
  f_equal.
  change (str "\an" ++ ds ++ rest)
    with (BACKSLASH :: ch "a" :: ch "n" :: ds ++ rest).
  assert (re_match re_tag (BACKSLASH :: ch "a" :: ch "n" :: ds ++ rest)
          = Some (drop_backslash rest)) as Hm.
  { rewrite re_match_tag, !N.eqb_refl, run_app, skip_digits by done.
    destruct ds; [done|]. done. }
  rewrite (re_sub_replace _ _ _ _ _ Hm); [done|].
  assert (length (drop_backslash rest) <= length rest)%nat.
  { destruct rest as [|c r]; simpl; [lia|]. destruct (c =? BACKSLASH); simpl; lia. }
  simpl. rewrite length_app. lia.
Qed.

(** C5. The annotation that follows a tag is kept. The lazy [.*?] that
    ends the pattern of line 41, written to take it, matches the empty
    string wherever it is tried, so a match of the pattern ends with the
    tag: [\an8\hello] gives [hello], and [{\an8}Hello there] gives
    [Hello there] where the claim leaves nothing of the annotation. *)
Theorem clean_transcript_keeps_annotation :
  (forall t, re_match [lazy_star Dot] t = Some t) /\
  (forall t,
      re_match [opt (Lit BACKSLASH); lazy_star Dot] t = Some (drop_backslash t)) /\
  re_sub re_tag [] (str "\an8\" ++ str "hello") = str "hello" /\
  clean_transcript (str "\an8\" ++ str "hello") = str "hello" /\
  clean_transcript (str "{\an8}Hello there") = str "Hello there" /\
  clean_transcript (str "so \an8\" ++ str "note: keep me") =
  str "so note: keep me".
Proof.
  split; [exact re_match_lazy_tail|].
  split; [exact re_match_tag_tail|].
  vm_compute. done.
Qed.

(** * Properties of the handlers *)

(** ** What the error replies can carry *)

Lemma is_surrogate_ch a : is_surrogate (ch a) = false.
Proof. by destruct a as [[] [] [] [] [] [] [] []]. Qed.

Lemma no_surrogate_str s : no_surrogate (str s) = true.
Proof.
  unfold str, no_surrogate.
  induction (list_ascii_of_string s) as [|a l IH]; [done|].
  cbn [List.map forallb]. by rewrite is_surrogate_ch, IH.
Qed.

Lemma no_surrogate_app s t :
  no_surrogate (s ++ t) = no_surrogate s && no_surrogate t.
Proof. apply forallb_app. Qed.

Lemma no_surrogate_cons c s :
  no_surrogate (c :: s) = negb (is_surrogate c) && no_surrogate s.
Proof. done. Qed.

Lemma no_surrogate_elem s :
  no_surrogate s = true <-> forall c, c ∈ s -> is_surrogate c = false.
Proof.
  unfold no_surrogate. rewrite forallb_forall. split.
  - intros H c Hc. apply negb_true_iff, H. by apply list_elem_of_In.
  - intros H c Hc. apply negb_true_iff, H. by apply list_elem_of_In.
Qed.

Lemma no_surrogate_type_name v : no_surrogate (type_name v) = true.
Proof. destruct v; apply no_surrogate_str. Qed.

Lemma no_surrogate_quoted s : no_surrogate (quoted s) = no_surrogate s.
Proof.
  unfold quoted. rewrite no_surrogate_cons, no_surrogate_app.
  rewrite is_surrogate_ch. simpl. by rewrite andb_true_r.
Qed.

Lemma no_surrogate_dquoted s : no_surrogate (dquoted s) = no_surrogate s.
Proof.
  unfold dquoted. rewrite no_surrogate_cons, no_surrogate_app.
  simpl. by rewrite andb_true_r.
Qed.

Lemma no_surrogate_str_of_Z z : no_surrogate (str_of_Z z) = true.
Proof. apply no_surrogate_str. Qed.

Create Rewrite HintDb surrogates.

#[local] Hint Rewrite no_surrogate_app no_surrogate_str no_surrogate_type_name
  no_surrogate_quoted no_surrogate_dquoted no_surrogate_str_of_Z : surrogates.

Lemma is_surrogate_hex_digit n : is_surrogate (hex_digit n) = false.
Proof.
  unfold hex_digit. generalize (N.to_nat n). intros k.
  do 16 (destruct k as [|k]; [reflexivity|]). by destruct k.
Qed.

Lemma no_surrogate_json_char c :
  no_surrogate (json_char c) = negb (is_surrogate c).
Proof.
  unfold json_char.
  destruct (c =? DQUOTE) eqn:E1; [by apply N.eqb_eq in E1 as ->|].
  destruct (c =? BACKSLASH) eqn:E2; [by apply N.eqb_eq in E2 as ->|].
  destruct (c =? 10) eqn:E3; [by apply N.eqb_eq in E3 as ->|].
  destruct (c =? 13) eqn:E4; [by apply N.eqb_eq in E4 as ->|].
  destruct (c =? 9) eqn:E5; [by apply N.eqb_eq in E5 as ->|].
  destruct (c =? 8) eqn:E6; [by apply N.eqb_eq in E6 as ->|].
  destruct (c =? 12) eqn:E7; [by apply N.eqb_eq in E7 as ->|].
  destruct (c <? 32) eqn:E8.
  - apply N.ltb_lt in E8.
    assert (is_surrogate c = false) as ->.
    { unfold is_surrogate. apply andb_false_intro1, N.leb_gt. lia. }
    rewrite no_surrogate_app, no_surrogate_str. unfold hex4.
    by rewrite !no_surrogate_cons, !is_surrogate_hex_digit.
  - rewrite no_surrogate_cons. apply andb_true_r.
Qed.

Lemma no_surrogate_json_string s :
  no_surrogate (json_string s) = no_surrogate s.
Proof.
  unfold json_string. rewrite no_surrogate_cons, no_surrogate_app.
  change (negb (is_surrogate DQUOTE) && (?x && no_surrogate [DQUOTE]))
    with (x && true).
  rewrite andb_true_r.
  induction s as [|c s IH]; [done|].
  cbn [flat_map]. by rewrite no_surrogate_app, no_surrogate_json_char, IH.
Qed.

Lemma no_surrogate_json_dumps_error message :
  no_surrogate (json_dumps_error message) = no_surrogate message.
Proof.
  unfold json_dumps_error.
  by rewrite !no_surrogate_app, !no_surrogate_json_string, !no_surrogate_str,
    andb_true_r.
Qed.

Lemma encode_utf8_error_None start s :
  no_surrogate s = true -> encode_utf8_error start s = None.
Proof.
  revert start. induction s as [|c s IH]; intros start; [done|].
  rewrite no_surrogate_cons. cbn [encode_utf8_error].
  destruct (is_surrogate c); [done|]. apply IH.
Qed.

Lemma encode_utf8_error_Some start s :
  no_surrogate s = false ->
  exists text, encode_utf8_error start s = Some (UnicodeEncodeError text).
Proof.
  revert start. induction s as [|c s IH]; intros start; [done|].
  rewrite no_surrogate_cons. cbn [encode_utf8_error].
  destruct (is_surrogate c); [by eexists|]. apply IH.
Qed.

(** The constructor of an error reply returns when the message holds no
    surrogate, and raises [UnicodeEncodeError] when it holds one. *)
Lemma error_response_ok status message :
  no_surrogate message = true ->
  error_response status message = ret (JSONResponse status (error_body message)).
Proof.
  intros H. unfold error_response.
  by rewrite encode_utf8_error_None by by rewrite no_surrogate_json_dumps_error.
Qed.

Lemma error_response_raises status message :
  no_surrogate message = false ->
  exists text,
    encode_utf8_error 0 (json_dumps_error message)
    = Some (UnicodeEncodeError text) /\
    error_response status message = raise (UnicodeEncodeError text).
Proof.
  intros H. unfold error_response.
  destruct (encode_utf8_error_Some 0 (json_dumps_error message)) as [text Ht];
    [by rewrite no_surrogate_json_dumps_error|].
  exists text. by rewrite Ht.
Qed.

Lemma error_response_world status message w :
  (error_response status message w).2 = w.
Proof. unfold error_response. by destruct (encode_utf8_error _ _). Qed.

Lemma error_response_literal status s :
  error_response status (str s) = ret (JSONResponse status (error_body (str s))).
Proof. apply error_response_ok, no_surrogate_str. Qed.

(** ** The clause of lines 112 and 129 *)

Lemma try_except_returns {A} (m : M A) h w r w' :
  m w = (inr r, w') -> try_except m h w = (inr r, w').
Proof. unfold try_except. by intros ->. Qed.

Lemma try_except_passes {A} (m : M A) h w e w' :
  m w = (inl e, w') ->
  isinstance e (str "Exception") = false ->
  try_except m h w = (inl e, w').
Proof. unfold try_except. by intros -> ->. Qed.

Lemma try_except_replies (m : M Reply) w e w' :
  m w = (inl e, w') ->
  ordinary e = true ->
  try_except m (fun e => error_response 500 (exn_text e)) w =
  (inr (JSONResponse 500 (error_body (exn_text e))), w').
Proof.
  unfold try_except, ordinary. intros -> [-> Htext]%andb_true_iff.
  by rewrite error_response_ok.
Qed.

Lemma try_except_unrendered (m : M Reply) w e w' :
  m w = (inl e, w') ->
  isinstance e (str "Exception") = true ->
  no_surrogate (exn_text e) = false ->
  exists text,
    encode_utf8_error 0 (json_dumps_error (exn_text e))
    = Some (UnicodeEncodeError text) /\
    try_except m (fun e => error_response 500 (exn_text e)) w =
    (inl (UnicodeEncodeError text), w').
Proof.
  unfold try_except. intros -> -> Htext.
  destruct (error_response_raises 500 _ Htext) as (text & Henc & ->).
  by exists text.
Qed.

Lemma try_except_world (m : M Reply) w :
  (try_except m (fun e => error_response 500 (exn_text e)) w).2 = (m w).2.
Proof.
  unfold try_except. destruct (m w) as [[e|r] w']; [|done].
  destruct (isinstance e _); [|done]. apply error_response_world.
Qed.

(** What a handler does with the outcome of its [try] block. *)
Lemma try_except_outcomes (m : M Reply) w :
  (forall r w', m w = (inr r, w') ->
                reply_status r = 200%Z \/ reply_status r = 400%Z) ->
  (forall r w',
      try_except m (fun e => error_response 500 (exn_text e)) w = (inr r, w') ->
      reply_status r ∈ [200%Z; 400%Z; 500%Z]) /\
  (forall e w',
      try_except m (fun e => error_response 500 (exn_text e)) w = (inl e, w') ->
      isinstance e (str "Exception") = false \/
      exists message,
        no_surrogate message = false /\
        encode_utf8_error 0 (json_dumps_error message) = Some e).
Proof.
  intros Hm. destruct (m w) as [[e|r] w1] eqn:E.
  - destruct (isinstance e (str "Exception")) eqn:Hi.
    + destruct (no_surrogate (exn_text e)) eqn:Ht.
      * rewrite (try_except_replies _ _ _ _ E)
          by (unfold ordinary; by rewrite Hi, Ht).
        split; [intros r w' [= <- <-]; set_solver | by intros e' w'].
      * destruct (try_except_unrendered _ _ _ _ E Hi Ht) as (text & Henc & ->).
        split; [by intros r w' | intros e' w' [= <- <-]].
        right. by exists (exn_text e).
    + rewrite (try_except_passes _ _ _ _ _ E Hi).
      split; [by intros r w' | intros e' w' [= <- <-]; by left].
  - rewrite (try_except_returns _ _ _ _ _ E).
    split; [|by intros e w'].
    intros r' w' [= <- <-]. destruct (Hm r w1 eq_refl) as [-> | ->]; set_solver.
Qed.

(** The exceptions that the code itself raises are ordinary. *)
Lemma ordinary_builtin cls bases text :
  bool_decide (str "Exception" ∈ cls :: bases) = true ->
  no_surrogate text = true ->
  ordinary (Exn cls bases text) = true.
Proof. intros Hb Ht. unfold ordinary, isinstance. simpl. by rewrite Hb, Ht. Qed.

Lemma ordinary_py_get data key default e :
  py_get data key default = inl e -> ordinary e = true.
Proof.
  destruct data; intros [= <-]; (apply ordinary_builtin; [reflexivity|]);
    by autorewrite with surrogates.
Qed.

Lemma ordinary_add_to_str left right e :
  add_to_str left right = inl e -> ordinary e = true.
Proof.
  destruct left; intros [= <-]; (apply ordinary_builtin; [reflexivity|]);
    by autorewrite with surrogates.
Qed.

Lemma ordinary_str_add left right e :
  str_add left right = inl e -> ordinary e = true.
Proof.
  destruct right; intros [= <-]; (apply ordinary_builtin; [reflexivity|]);
    by autorewrite with surrogates.
Qed.

Lemma ordinary_clean_transcript_of result e :
  clean_transcript_of result = inl e -> ordinary e = true.
Proof.
  destruct result; intros [= <-]; (apply ordinary_builtin; [reflexivity|]);
    by autorewrite with surrogates.
Qed.

Lemma ordinary_first_choice_text response e :
  first_choice_text response = inl e -> ordinary e = true.
Proof.
  unfold first_choice_text. destruct (choices response) as [|[c|] rest];
    intros [= <-]; (apply ordinary_builtin; [reflexivity|]);
    by autorewrite with surrogates.
Qed.

Section ServiceProperties.

Variable rt : Runtime.
Variable svc : Services.

Implicit Types (request : Request) (w : World) (d : list (pystr * pyval)).

Lemma ordinary_metadata_file_name file_metadata e :
  metadata_file_name rt file_metadata = inl e -> ordinary e = true.
Proof.
  unfold metadata_file_name.
  destruct (assoc _ _) as [[]|]; intros [= <-];
    (apply ordinary_builtin; [reflexivity|]); by autorewrite with surrogates.
Qed.

(** /transcribe on a body whose [file_id] passes line 103, and
    /generate-report on a body whose [transcript] passes line 123. *)
Lemma transcribe_endpoint_run request d file_id w :
  request_json request = inr (PDict d) ->
  assoc (str "file_id") d = Some file_id ->
  truthy file_id = true ->
  transcribe_endpoint rt svc request w =
  try_except
    (let* mp3_path := download_mp3_from_drive rt svc file_id in
     let* transcript := transcribe_audio rt svc mp3_path in
     let* _ := os_remove rt mp3_path in
     ret (Plain (PDict [(str "transcript", PStr (strip transcript))])))
    (fun e => error_response 500 (exn_text e)) w.
Proof.
  intros Hd Hid Htrue.
  unfold transcribe_endpoint, try_except, bind, lift, py_get.
  rewrite Hd, Hid. cbn [from_option id]. by rewrite Htrue.
Qed.

Lemma generate_report_endpoint_run request d transcript w :
  request_json request = inr (PDict d) ->
  assoc (str "transcript") d = Some transcript ->
  truthy transcript = true ->
  generate_report_endpoint svc request w =
  try_except
    (let* report :=
       generate_llm_report svc
         (from_option id (PStr default_prompt) (assoc (str "prompt") d))
         transcript in
     ret (Plain (PDict [(str "report", PStr report)])))
    (fun e => error_response 500 (exn_text e)) w.
Proof.
  intros Hd Ht Htrue.
  unfold generate_report_endpoint, try_except, bind, lift, py_get.
  rewrite Hd, Ht. cbn [from_option id]. by rewrite Htrue.
Qed.

(** What the handlers do with a missing field. *)
Lemma transcribe_endpoint_missing request d file_id w :
  request_json request = inr (PDict d) ->
  from_option id PNone (assoc (str "file_id") d) = file_id ->
  truthy file_id = false ->
  transcribe_endpoint rt svc request w =
  (inr (JSONResponse 400 (error_body (str "Missing file_id"))), w).
Proof.
  intros Hd Hid Hfalse.
  unfold transcribe_endpoint, try_except, bind, lift, py_get.
  rewrite Hd, Hid, Hfalse. cbn [negb]. by rewrite error_response_literal.
Qed.

Lemma generate_report_endpoint_missing request d transcript w :
  request_json request = inr (PDict d) ->
  from_option id PNone (assoc (str "transcript") d) = transcript ->
  truthy transcript = false ->
  generate_report_endpoint svc request w =
  (inr (JSONResponse 400 (error_body (str "Missing transcript"))), w).
Proof.
  intros Hd Ht Hfalse.
  unfold generate_report_endpoint, try_except, bind, lift, py_get.
  rewrite Hd, Ht, Hfalse. cbn [negb]. by rewrite error_response_literal.
Qed.

(** C7. A body that is a JSON object without [file_id] gets 400 and the
    body with [Missing file_id] as its [error] from /transcribe; one whose
    [transcript] is missing or the empty string gets 400 and [Missing
    transcript] from /generate-report. In both cases the world is as
    before: nothing was fetched, no call was made. *)
Theorem missing_fields_rejected request d w :
  request_json request = inr (PDict d) ->
  (assoc (str "file_id") d = None ->
   transcribe_endpoint rt svc request w =
   (inr (JSONResponse 400 (PDict [(str "error", PStr (str "Missing file_id"))])),
    w)) /\
  (assoc (str "transcript") d = None \/
   assoc (str "transcript") d = Some (PStr []) ->
   generate_report_endpoint svc request w =
   (inr (JSONResponse 400
           (PDict [(str "error", PStr (str "Missing transcript"))])),
    w)).
Proof.
  intros Hd. split.
  - intros Hid.
    apply (transcribe_endpoint_missing _ d PNone); [done | by rewrite Hid | done].
  - intros Ht.
    apply (generate_report_endpoint_missing _ d
             (from_option id PNone (assoc (str "transcript") d))); [done..|].
    by destruct Ht as [-> | ->].
Qed.

(** C10. A body whose [prompt] is null, with a transcript that passes the
    check of line 123: the default prompt is not used, the concatenation of
    line 85 raises, and the reply is 500; no call to the language model was
    made. *)
Theorem null_prompt_is_an_error request d transcript w :
  request_json request = inr (PDict d) ->
  assoc (str "prompt") d = Some PNone ->
  assoc (str "transcript") d = Some transcript ->
  truthy transcript = true ->
  generate_report_endpoint svc request w =
  (inr (JSONResponse 500
          (error_body
             (str "unsupported operand type(s) for +: 'NoneType' and 'str'"))),
   w).
Proof.
  intros Hd Hp Ht Htrue.
  rewrite (generate_report_endpoint_run _ _ _ _ Hd Ht Htrue), Hp.
  by apply (try_except_replies _ _
              (TypeError
                 (str "unsupported operand type(s) for +: 'NoneType' and 'str'"))).
Qed.

(** The call that [generate_llm_report] makes for two strings. *)
Lemma generate_llm_report_call (p t : pystr) w :
  calls (generate_llm_report svc (PStr p) (PStr t) w).2 =
  calls w ++
  [ChatCompletionsCreate (str "gpt-4")
     (chat_messages (p ++ transcript_separator ++ t)) (str "0.7")].
Proof.
  unfold generate_llm_report, bind, lift, call. simpl.
  rewrite <- ?app_assoc.
  by destruct (chat_completions_create svc _) as [e|r].
Qed.

(** C4. The user message sent to the language model is the prompt, two
    newlines, [Transcript:], one newline and the transcript; so it is for
    [Rate 1-5] and [Good answers.]; and a body without [prompt] is sent with
    the default instruction in its place. *)
Theorem prompt_assembly (p t : pystr) w :
  calls (generate_llm_report svc (PStr p) (PStr t) w).2 =
  calls w ++
  [ChatCompletionsCreate (str "gpt-4")
     [ (str "system", str "You are an expert HR interview evaluator.");
       (str "user", p ++ [NL; NL] ++ str "Transcript:" ++ [NL] ++ t) ]
     (str "0.7")] /\
  calls (generate_llm_report svc (PStr (str "Rate 1-5"))
           (PStr (str "Good answers.")) w).2 =
  calls w ++
  [ChatCompletionsCreate (str "gpt-4")
     [ (str "system", str "You are an expert HR interview evaluator.");
       (str "user",
        str "Rate 1-5" ++ [10; 10] ++ str "Transcript:" ++ [10]
        ++ str "Good answers.") ]
     (str "0.7")] /\
  (forall request d,
      request_json request = inr (PDict d) ->
      assoc (str "prompt") d = None ->
      assoc (str "transcript") d = Some (PStr t) ->
      t <> [] ->
      calls (generate_report_endpoint svc request w).2 =
      calls w ++
      [ChatCompletionsCreate (str "gpt-4")
         [ (str "system", str "You are an expert HR interview evaluator.");
           (str "user",
            str "Evaluate the following interview transcript."
            ++ [NL; NL] ++ str "Transcript:" ++ [NL] ++ t) ]
         (str "0.7")]).
Proof.
  split; [|split].
  - rewrite generate_llm_report_call. unfold transcript_separator.
    by rewrite <- ?app_assoc.
  - by rewrite generate_llm_report_call.
  - intros request d Hd Hp Ht Hne.
    pose proof (generate_llm_report_call default_prompt t w) as Hcall.
    rewrite (generate_report_endpoint_run _ _ _ _ Hd Ht), Hp
      by (simpl; by rewrite bool_decide_eq_false_2).
    rewrite try_except_world. unfold bind. cbn [from_option id].
    destruct (generate_llm_report svc _ _ w) as [[e|r] w'];
      simpl in *; rewrite Hcall; unfold transcript_separator;
      by rewrite <- ?app_assoc.
Qed.



(** A download that returns has written the file it names. *)
Lemma download_mp3_written file_id mp3_path w w1 :
  download_mp3_from_drive rt svc file_id w = (inr mp3_path, w1) ->
  exists data, files w1 = <[mp3_path := data]> (files w).
Proof.
  unfold download_mp3_from_drive, bind, call, lift, raise, write_file, ret.
  simpl.
  destruct (service_account_token svc) as [e|token]; [by intros [=]|].
  destruct (drive_files_get svc file_id) as [e|md]; [by intros [=]|].
  destruct (metadata_file_name rt md) as [e|file_name]; [by intros [=]|].
  destruct (requests_get svc _ _) as [e|response]; [by intros [=]|].
  destruct (negb _); [by intros [=]|].
  destruct (open_wb rt _); [by intros [=]|].
  destruct (write_fault rt _ _) as [[e n]|]; [by intros [=]|].
  intros [= <- <-]. by eexists.
Qed.



(** What the [try] blocks return is a plain dict or a 400. *)
Lemma transcribe_body_status request w r w' :
  (let* data := lift (request_json request) in
   let* file_id := lift (py_get data (str "file_id") PNone) in
   if negb (truthy file_id) then
     error_response 400 (str "Missing file_id")
   else
     let* mp3_path := download_mp3_from_drive rt svc file_id in
     let* transcript := transcribe_audio rt svc mp3_path in
     let* _ := os_remove rt mp3_path in
     ret (Plain (PDict [(str "transcript", PStr (strip transcript))]))) w
  = (inr r, w') ->
  reply_status r = 200%Z \/ reply_status r = 400%Z.
Proof.
  unfold bind, lift, ret.
  destruct (request_json request) as [?|data]; [done|].
  destruct (py_get data _ _) as [?|file_id]; [done|].
  destruct (negb (truthy file_id)).
  { rewrite error_response_literal. intros [= <- <-]. by right. }
  destruct (download_mp3_from_drive rt svc file_id w) as [[?|mp3_path] w1];
    [done|].
  destruct (transcribe_audio rt svc mp3_path w1) as [[?|transcript] w2]; [done|].
  destruct (os_remove rt mp3_path w2) as [[?|[]] w3]; [done|].
  intros [= <- <-]. by left.
Qed.

Lemma generate_report_body_status request w r w' :
  (let* data := lift (request_json request) in
   let* prompt := lift (py_get data (str "prompt") (PStr default_prompt)) in
   let* transcript := lift (py_get data (str "transcript") PNone) in
   if negb (truthy transcript) then
     error_response 400 (str "Missing transcript")
   else
     let* report := generate_llm_report svc prompt transcript in
     ret (Plain (PDict [(str "report", PStr report)]))) w
  = (inr r, w') ->
  reply_status r = 200%Z \/ reply_status r = 400%Z.
Proof.
  unfold bind, lift, ret.
  destruct (request_json request) as [?|data]; [done|].
  destruct (py_get data _ (PStr _)) as [?|prompt]; [done|].
  destruct (py_get data _ PNone) as [?|transcript]; [done|].
  destruct (negb (truthy transcript)).
  { rewrite error_response_literal. intros [= <- <-]. by right. }
  destruct (generate_llm_report svc prompt transcript w) as [[?|report] w1];
    [done|].
  intros [= <- <-]. by left.
Qed.

(** Under [ordinary_failures], what the helpers raise is ordinary. *)
Lemma ordinary_download request file_id e w w' :
  ordinary_failures rt svc request ->
  download_mp3_from_drive rt svc file_id w = (inl e, w') ->
  ordinary e = true.
Proof.
  intros (_ & Htok & Hmeta & Hget & Htext & Hopen & Hwrite & _).
  unfold download_mp3_from_drive, bind, call, lift, raise, write_file, ret.
  simpl.
  destruct (service_account_token svc) as [?|token] eqn:E1;
    [intros [= <- _]; by apply Htok|].
  destruct (drive_files_get svc file_id) as [?|md] eqn:E2;
    [intros [= <- _]; by eapply Hmeta|].
  destruct (metadata_file_name rt md) as [?|file_name] eqn:E3;
    [intros [= <- _]; by eapply ordinary_metadata_file_name|].
  destruct (requests_get svc _ _) as [?|response] eqn:E4;
    [intros [= <- _]; by eapply Hget|].
  destruct (negb _) eqn:E5.
  { intros [= <- _]. apply ordinary_builtin; [reflexivity|].
    autorewrite with surrogates. rewrite (Htext _ _ _ E4); [done|].
    apply negb_true_iff in E5. by apply Z.eqb_neq. }
  destruct (open_wb rt _) eqn:E6; [intros [= <- _]; by eapply Hopen|].
  destruct (write_fault rt _ _) as [[e' n]|] eqn:E7; [|done].
  intros [= <- _]. by eapply Hwrite.
Qed.

Lemma ordinary_transcribe_audio request mp3_path data e w w' :
  ordinary_failures rt svc request ->
  files w !! mp3_path = Some data ->
  transcribe_audio rt svc mp3_path w = (inl e, w') ->
  ordinary e = true.
Proof.
  intros (_ & _ & _ & _ & _ & _ & _ & Hstt & _) Hdata.
  unfold transcribe_audio, bind, read_file, call, lift. rewrite Hdata.
  destruct (transcriptions_create svc data) as [?|result] eqn:E1;
    [intros [= <- _]; by eapply Hstt|].
  destruct (clean_transcript_of result) as [?|transcript] eqn:E2; [|done].
  intros [= <- _]. by eapply ordinary_clean_transcript_of.
Qed.

Lemma transcribe_audio_files mp3_path w outcome w' :
  transcribe_audio rt svc mp3_path w = (outcome, w') -> files w' = files w.
Proof.
  unfold transcribe_audio, bind, read_file, call, lift.
  destruct (files w !! mp3_path); [|by intros [= _ <-]].
  destruct (transcriptions_create svc _); [by intros [= _ <-]|].
  by intros [= _ <-].
Qed.

Lemma ordinary_generate_llm_report request prompt transcript e w w' :
  ordinary_failures rt svc request ->
  generate_llm_report svc prompt transcript w = (inl e, w') ->
  ordinary e = true.
Proof.
  intros (_ & _ & _ & _ & _ & _ & _ & _ & Hchat).
  unfold generate_llm_report, bind, lift, call.
  destruct (add_to_str _ _) as [?|with_label] eqn:E1;
    [intros [= <- _]; by eapply ordinary_add_to_str|].
  destruct (str_add _ _) as [?|full_input] eqn:E2;
    [intros [= <- _]; by eapply ordinary_str_add|].
  destruct (chat_completions_create svc _) as [?|response] eqn:E3;
    [intros [= <- _]; by eapply Hchat|].
  destruct (first_choice_text response) eqn:E4; [|done].
  intros [= <- _]. by eapply ordinary_first_choice_text.
Qed.

Lemma transcribe_body_ordinary request w e w' :
  ordinary_failures rt svc request ->
  (let* data := lift (request_json request) in
   let* file_id := lift (py_get data (str "file_id") PNone) in
   if negb (truthy file_id) then
     error_response 400 (str "Missing file_id")
   else
     let* mp3_path := download_mp3_from_drive rt svc file_id in
     let* transcript := transcribe_audio rt svc mp3_path in
     let* _ := os_remove rt mp3_path in
     ret (Plain (PDict [(str "transcript", PStr (strip transcript))]))) w
  = (inl e, w') ->
  ordinary e = true.
Proof.
  intros Hord. pose proof Hord as (Hjson & _).
  unfold bind, lift, ret.
  destruct (request_json request) as [?|data] eqn:E1;
    [intros [= <- _]; by apply Hjson|].
  destruct (py_get data _ _) as [?|file_id] eqn:E2;
    [intros [= <- _]; by eapply ordinary_py_get|].
  destruct (negb (truthy file_id)).
  { by rewrite error_response_literal. }
  destruct (download_mp3_from_drive rt svc file_id w) as [[?|mp3_path] w1] eqn:E3;
    [intros [= <- _]; by eapply ordinary_download|].
  destruct (download_mp3_written _ _ _ _ E3) as [data' Hfiles].
  assert (files w1 !! mp3_path = Some data') as Hdata.
  { rewrite Hfiles. apply lookup_insert_eq. }
  destruct (transcribe_audio rt svc mp3_path w1) as [[?|transcript] w2] eqn:E4;
    [intros [= <- _]; by eapply ordinary_transcribe_audio|].
  unfold os_remove. rewrite (transcribe_audio_files _ _ _ _ E4), Hdata. done.
Qed.

Lemma generate_report_body_ordinary request w e w' :
  ordinary_failures rt svc request ->
  (let* data := lift (request_json request) in
   let* prompt := lift (py_get data (str "prompt") (PStr default_prompt)) in
   let* transcript := lift (py_get data (str "transcript") PNone) in
   if negb (truthy transcript) then
     error_response 400 (str "Missing transcript")
   else
     let* report := generate_llm_report svc prompt transcript in
     ret (Plain (PDict [(str "report", PStr report)]))) w
  = (inl e, w') ->
  ordinary e = true.
Proof.
  intros Hord. pose proof Hord as (Hjson & _).
  unfold bind, lift, ret.
  destruct (request_json request) as [?|data] eqn:E1;
    [intros [= <- _]; by apply Hjson|].
  destruct (py_get data _ (PStr _)) as [?|prompt] eqn:E2;
    [intros [= <- _]; by eapply ordinary_py_get|].
  destruct (py_get data _ PNone) as [?|transcript] eqn:E3;
    [intros [= <- _]; by eapply ordinary_py_get|].
  destruct (negb (truthy transcript)).
  { by rewrite error_response_literal. }
  destruct (generate_llm_report svc prompt transcript w) as [[?|report] w1] eqn:E4;
    [|done].
  intros [= <- _]. by eapply ordinary_generate_llm_report.
Qed.

(** A handler whose [try] block raises only ordinary exceptions returns. *)
Lemma try_except_total (m : M Reply) w :
  (forall e w', m w = (inl e, w') -> ordinary e = true) ->
  exists r w',
    try_except m (fun e => error_response 500 (exn_text e)) w = (inr r, w').
Proof.
  intros Hm. destruct (m w) as [[e|r] w1] eqn:E.
  - rewrite (try_except_replies _ _ _ _ E) by by eapply Hm. by eexists _, _.
  - rewrite (try_except_returns _ _ _ _ _ E). by eexists _, _.
Qed.

(** A body that [request.json()] refuses: what comes of its exception. *)
Lemma try_except_bad_json (k : pyval -> M Reply) request e w :
  request_json request = inl e ->
  (ordinary e = true ->
   try_except (let* data := lift (request_json request) in k data)
     (fun e => error_response 500 (exn_text e)) w =
   (inr (JSONResponse 500 (PDict [(str "error", PStr (exn_text e))])), w)) /\
  (isinstance e (str "Exception") = false ->
   try_except (let* data := lift (request_json request) in k data)
     (fun e => error_response 500 (exn_text e)) w = (inl e, w)).
Proof.
  intros He. split; intros H.
  - apply try_except_replies; [|done]. unfold bind, lift. by rewrite He.
  - apply try_except_passes; [|done]. unfold bind, lift. by rewrite He.
Qed.

(** C9 (amended). Each handler returns a reply whenever every exception
    raised by [request.json()], by the services and by the file system is
    an instance of [Exception] whose text holds no surrogate (and so does
    the text of a refused download). A reply has status 200, 400 or 500. A
    handler raises only an exception that is not an instance of
    [Exception], which passes the clause of lines 112 and 129, or the
    [UnicodeEncodeError] of rendering, inside that clause, a message that
    holds a surrogate. A body that is not JSON gets 500 with the text of
    the error of [request.json()] when that error is ordinary; an error
    that is not an instance of [Exception] is raised by the handler. *)
Theorem handlers_reply_to_ordinary_failures request w :
  Forall
    (fun handler : Request -> M Reply =>
       (ordinary_failures rt svc request ->
        exists r w', handler request w = (inr r, w')) /\
       (forall r w',
           handler request w = (inr r, w') ->
           reply_status r ∈ [200%Z; 400%Z; 500%Z]) /\
       (forall e w',
           handler request w = (inl e, w') ->
           isinstance e (str "Exception") = false \/
           exists message,
             no_surrogate message = false /\
             encode_utf8_error 0 (json_dumps_error message) = Some e) /\
       (forall e,
           request_json request = inl e ->
           (ordinary e = true ->
            handler request w =
            (inr (JSONResponse 500 (PDict [(str "error", PStr (exn_text e))])),
             w)) /\
           (isinstance e (str "Exception") = false ->
            handler request w = (inl e, w))))
    [transcribe_endpoint rt svc; generate_report_endpoint svc].
Proof.
  constructor; [|constructor; [|constructor]].
  - unfold transcribe_endpoint. split; [|split; [|split]].
    + intros Hord. apply try_except_total.
      intros e w'. by apply transcribe_body_ordinary.
    + apply try_except_outcomes. apply transcribe_body_status.
    + apply try_except_outcomes. apply transcribe_body_status.
    + intros e He. by apply try_except_bad_json.
  - unfold generate_report_endpoint. split; [|split; [|split]].
    + intros Hord. apply try_except_total.
      intros e w'. by apply generate_report_body_ordinary.
    + apply try_except_outcomes. apply generate_report_body_status.
    + apply try_except_outcomes. apply generate_report_body_status.
    + intros e He. by apply try_except_bad_json.
Qed.

End ServiceProperties.

(** ** The theorems at concrete requests *)

(** C9 (as stated, refuted). A request that is cancelled while its body is
    awaited: [CancelledError] is not an instance of [Exception] and leaves
    the handler. An error of the language model whose text holds a
    surrogate: the handler catches it and raises [UnicodeEncodeError] while
    it builds the 500 reply. In both cases there is no reply. *)
Lemma handlers_not_always_reply :
  transcribe_endpoint example_runtime (example_services 200 (inr PNone))
    {| request_json := inl CancelledError |} empty_world
  = (inl CancelledError, empty_world) /\
  status_after
    (transcribe_endpoint example_runtime (example_services 200 (inr PNone))
       {| request_json := inl CancelledError |}) empty_world = None /\
  (generate_report_endpoint (example_chat_services (inl surrogate_failure))
     (json_request [(str "transcript", PStr (str "Good answers."))])
     empty_world).1
  = inl (UnicodeEncodeError
           (str "'utf-8' codec can't encode character '\ud83d' in position 25: surrogates not allowed")) /\
  status_after
    (generate_report_endpoint (example_chat_services (inl surrogate_failure))
       (json_request [(str "transcript", PStr (str "Good answers."))]))
    empty_world = None.
Proof. vm_compute. done. Qed.

Lemma example_ordinary_failures status transcription request :
  (forall e, transcription = inl e -> ordinary e = true) ->
  (forall e, request_json request = inl e -> ordinary e = true) ->
  ordinary_failures example_runtime (example_services status transcription)
    request.
Proof.
  intros Hstt Hjson. unfold ordinary_failures. simpl.
  repeat split; try done.
  by intros url headers response [= <-] _.
Qed.

Lemma handlers_reply_to_ordinary_failures_witness :
  (exists r w',
      transcribe_endpoint example_runtime (example_services 404 (inr PNone))
        (json_request [(str "file_id", PStr (str "1AbC"))]) empty_world
      = (inr r, w')) /\
  transcribe_endpoint example_runtime (example_services 200 (inr PNone))
    {| request_json :=
         inl (JSONDecodeError (str "Expecting value: line 1 column 1 (char 0)")) |}
    empty_world
  = (inr (JSONResponse 500
            (PDict [(str "error",
                     PStr (str "Expecting value: line 1 column 1 (char 0)"))])),
     empty_world).
Proof.
  split.
  - pose proof (handlers_reply_to_ordinary_failures example_runtime
                  (example_services 404 (inr PNone))
                  (json_request [(str "file_id", PStr (str "1AbC"))])
                  empty_world) as H.
    apply Forall_cons in H as [(H & _) _]. apply H.
    by apply example_ordinary_failures.
  - pose proof (handlers_reply_to_ordinary_failures example_runtime
                  (example_services 200 (inr PNone))
                  {| request_json :=
                       inl (JSONDecodeError
                              (str "Expecting value: line 1 column 1 (char 0)")) |}
                  empty_world) as H.
    apply Forall_cons in H as [(_ & _ & _ & H) _].
    destruct (H _ eq_refl) as [H500 _]. apply H500. reflexivity.
Defined.

Lemma missing_fields_rejected_witness :
  transcribe_endpoint example_runtime (example_services 200 (inr PNone))
    (json_request []) empty_world =
  (inr (JSONResponse 400 (PDict [(str "error", PStr (str "Missing file_id"))])),
   empty_world) /\
  generate_report_endpoint (example_services 200 (inr PNone))
    (json_request []) empty_world =
  (inr (JSONResponse 400
          (PDict [(str "error", PStr (str "Missing transcript"))])),
   empty_world).
Proof.
  destruct (missing_fields_rejected example_runtime
              (example_services 200 (inr PNone)) (json_request []) [] empty_world eq_refl)
    as [H1 H2].
  split; [apply H1; reflexivity | apply H2; left; reflexivity].
Defined.

Lemma null_prompt_is_an_error_witness :
  generate_report_endpoint (example_services 200 (inr PNone))
    (json_request [(str "prompt", PNone); (str "transcript", PStr (str "Good answers."))])
    empty_world =
  (inr (JSONResponse 500
          (error_body
             (str "unsupported operand type(s) for +: 'NoneType' and 'str'"))),
   empty_world).
Proof.
  apply (null_prompt_is_an_error (example_services 200 (inr PNone)) _
           [(str "prompt", PNone); (str "transcript", PStr (str "Good answers."))]
           (PStr (str "Good answers."))); reflexivity.
Defined.

Lemma prompt_assembly_witness :
  calls (generate_report_endpoint (example_services 200 (inr PNone))
           (json_request [(str "transcript", PStr (str "Good answers."))]) empty_world).2 =
  [ChatCompletionsCreate (str "gpt-4")
     [ (str "system", str "You are an expert HR interview evaluator.");
       (str "user",
        str "Evaluate the following interview transcript."
        ++ [NL; NL] ++ str "Transcript:" ++ [NL] ++ str "Good answers.") ]
     (str "0.7")].
Proof.
  destruct (prompt_assembly (example_services 200 (inr PNone))
              (str "Rate 1-5") (str "Good answers.") empty_world)
    as (_ & _ & H).
  apply (H (json_request [(str "transcript", PStr (str "Good answers."))])
           [(str "transcript", PStr (str "Good answers."))]);
    [reflexivity | reflexivity | reflexivity | discriminate].
Defined.



(** * Further properties of the sanitizer *)

(** ** Line 45: timestamps *)

Lemma digit_not_separator c : is_digit c = true -> mem c separators = false.
Proof.
  intros Hd. destruct (mem c separators) eqn:E; [|done].
  apply mem_spec in E. unfold separators in E.
  rewrite !elem_of_cons, elem_of_nil in E.
  destruct E as [->|[->|[]]]; vm_compute in Hd; discriminate.
Qed.

Lemma re_match_group_reject p s :
  (forall c t, is_digit c = true -> re_match p (c :: t) = None) ->
  re_match (at_least 2 Digit :: p) s = group_then (re_match p) s.
Proof. intros Hp. unfold at_least. simpl. by apply rep_greedy_reject. Qed.

Lemma re_match_sep p s :
  re_match (once (OneOf separators) :: p) s = sep_then (re_match p) s.
Proof. by rewrite re_match_once. Qed.

Lemma sep_then_digit k c t : is_digit c = true -> sep_then k (c :: t) = None.
Proof. intros Hc. unfold sep_then. by rewrite digit_not_separator. Qed.

Lemma group_then_ext k k' s :
  (forall t, k t = k' t) -> group_then k s = group_then k' s.
Proof. intros H. unfold group_then. by rewrite H. Qed.

Lemma sep_then_ext k k' s :
  (forall t, k t = k' t) -> sep_then k s = sep_then k' s.
Proof. intros H. destruct s as [|c s]; unfold sep_then; [done | by rewrite H]. Qed.

(** The pattern of line 45 at the start of a text. No digit is given back:
    every group is the whole run of digits found there. *)
Lemma re_match_timestamp s : re_match re_timestamp s = timestamp_rest s.
Proof.
  unfold re_timestamp, timestamp_rest.
  change [ch ":"; ch "."] with separators.
  rewrite re_match_group_reject
    by (intros c t Hc; rewrite re_match_sep; by apply sep_then_digit).
  apply group_then_ext. intros t1. rewrite re_match_sep.
  apply sep_then_ext. intros t2.
  rewrite re_match_group_reject
    by (intros c t Hc; rewrite re_match_sep; by apply sep_then_digit).
  apply group_then_ext. intros t3. rewrite re_match_sep.
  apply sep_then_ext. intros t4.
  rewrite re_match_at_least_2. done.
Qed.

Lemma separator_not_digit c : mem c separators = true -> is_digit c = false.
Proof.
  intros Hs. destruct (is_digit c) eqn:E; [|done].
  apply digit_not_separator in E. congruence.
Qed.

Lemma timestamp_nondigit c t :
  is_digit c = false -> re_match re_timestamp (c :: t) = None.
Proof.
  intros Hc. destruct (re_match re_timestamp (c :: t)) as [r|] eqn:E; [|done].
  destruct (re_match_head _ _ _ _ head_timestamp E) as (c' & t' & [= <- <-] & Hc').
  simpl in Hc'. congruence.
Qed.

Lemma timestamp_nil : re_match re_timestamp [] = None.
Proof. by rewrite re_match_timestamp. Qed.

(** A match goes over to the left along a run of digits. *)
Lemma timestamp_propagate c t :
  is_digit c = true ->
  re_match re_timestamp (c :: t) = None -> re_match re_timestamp t = None.
Proof.
  rewrite !re_match_timestamp. unfold timestamp_rest.
  set (k := sep_then _). unfold group_then.
  intros Hc. cbn [run skip atom_match]. rewrite Hc.
  destruct (2 <=? run Digit t)%nat eqn:E; [|done].
  apply Nat.leb_le in E.
  by assert ((2 <=? S (run Digit t))%nat = true) as -> by (apply Nat.leb_le; lia).
Qed.

(** What is left after a timestamp does not start with a digit. *)
Lemma timestamp_rest_head s r :
  re_match re_timestamp s = Some r -> starts_with_digit r = false.
Proof.
  rewrite re_match_timestamp. unfold timestamp_rest, group_then, sep_then.
  repeat (case_match; try done).
  intros [= <-].
  destruct (skip Digit _) as [|x u] eqn:E in |- *; [done|].
  by apply skip_head in E.
Qed.

(** Where line 45 finds no timestamp at the start, the first run of digits
    is copied as it is. *)
Lemma remove_timestamps_run s :
  re_match re_timestamp s = None ->
  run Digit (re_sub re_timestamp [] s) = run Digit s /\
  skip Digit (re_sub re_timestamp [] s) = re_sub re_timestamp [] (skip Digit s).
Proof.
  induction s as [|c s IH]; intros Hs; [done|].
  rewrite re_sub_copy by done. cbn [run skip atom_match].
  destruct (is_digit c) eqn:Hc.
  - destruct (IH (timestamp_propagate _ _ Hc Hs)) as [-> ->]. done.
  - by rewrite re_sub_copy by done.
Qed.

Lemma remove_timestamps_run_le s :
  (run Digit (re_sub re_timestamp [] s) <= run Digit s)%nat.
Proof.
  destruct (re_match re_timestamp s) as [r|] eqn:Hs.
  - destruct s as [|c s]; [by rewrite timestamp_nil in Hs|].
    rewrite (re_sub_replace _ _ _ _ _ Hs)
      by (eapply re_match_shorter; [apply head_timestamp | done]).
    simpl app. apply timestamp_rest_head in Hs.
    assert (re_match re_timestamp r = None) as Hr.
    { destruct r as [|x r]; [apply timestamp_nil | by apply timestamp_nondigit]. }
    destruct (remove_timestamps_run r Hr) as [-> _].
    destruct r as [|x r]; simpl in *; [lia | rewrite Hs; lia].
  - by destruct (remove_timestamps_run s Hs) as [-> _].
Qed.

Lemma group_then_mono k k' s :
  (forall t, k t <> None -> k' t <> None) ->
  group_then k s <> None -> group_then k' s <> None.
Proof. unfold group_then. destruct (2 <=? _)%nat; auto. Qed.

Lemma sep_then_mono k k' s :
  (forall t, k t <> None -> k' t <> None) ->
  sep_then k s <> None -> sep_then k' s <> None.
Proof.
  unfold sep_then. destruct s as [|c s]; [done|].
  destruct (mem c separators); auto.
Qed.

(** The result of line 45 does not start with a timestamp. *)
Lemma remove_timestamps_head s :
  re_match re_timestamp (re_sub re_timestamp [] s) = None.
Proof.
  destruct (re_match re_timestamp s) as [r|] eqn:Hs.
  - pose proof (remove_timestamps_run_le s) as Hle.
    destruct s as [|c s]; [by rewrite timestamp_nil in Hs|].
    rewrite (re_sub_replace _ _ _ _ _ Hs) in *
      by (eapply re_match_shorter; [apply head_timestamp | done]).
    simpl app in *. apply timestamp_rest_head in Hs.
    assert (re_match re_timestamp r = None) as Hr.
    { destruct r as [|x r]; [apply timestamp_nil | by apply timestamp_nondigit]. }
    destruct (remove_timestamps_run r Hr) as [Hrun _].
    rewrite re_match_timestamp. unfold timestamp_rest.
    set (k1 := sep_then _). unfold group_then.
    rewrite Hrun. destruct r as [|x r]; simpl in *; [done | by rewrite Hs].
  - destruct (remove_timestamps_run s Hs) as [Hrun Hskip].
    rewrite re_match_timestamp in Hs |- *. unfold timestamp_rest in Hs |- *.
    set (k1 := sep_then _) in Hs |- *. unfold group_then in Hs |- *.
    rewrite Hrun, Hskip.
    destruct (2 <=? run Digit s)%nat; [|done].
    destruct (skip Digit s) as [|z t2] eqn:E2; [done|].
    apply skip_head in E2. simpl in E2.
    rewrite re_sub_copy by (by apply timestamp_nondigit).
    subst k1. set (k2 := group_then _) in Hs |- *. unfold sep_then in Hs |- *.
    destruct (mem z separators); [|done]. subst k2.
    assert (re_match re_timestamp t2 = None) as Ht2.
    { rewrite re_match_timestamp. unfold timestamp_rest.
      destruct (group_then _ t2) eqn:E in |- *; [|done]. exfalso.
      assert (group_then (sep_then (group_then Some)) t2 <> None); [|done].
      eapply group_then_mono; [|by rewrite E].
      intros t. apply sep_then_mono. intros u. by apply group_then_mono. }
    destruct (remove_timestamps_run t2 Ht2) as [Hrun2 Hskip2].
    set (k3 := sep_then _) in Hs |- *. unfold group_then in Hs |- *.
    rewrite Hrun2, Hskip2.
    destruct (2 <=? run Digit t2)%nat; [|done].
    destruct (skip Digit t2) as [|z2 t3] eqn:E3; [done|].
    apply skip_head in E3. simpl in E3.
    rewrite re_sub_copy by (by apply timestamp_nondigit).
    subst k3. unfold sep_then in Hs |- *.
    destruct (mem z2 separators); [|done].
    unfold group_then in Hs |- *.
    pose proof (remove_timestamps_run_le t3) as Hle.
    destruct (2 <=? run Digit t3)%nat eqn:E4; [done|].
    apply Nat.leb_gt in E4.
    by assert ((2 <=? run Digit (re_sub re_timestamp [] t3))%nat = false) as ->
      by (apply Nat.leb_gt; lia).
Qed.

Lemma re_sub_keep p repl c s :
  (forall r, re_match p (c :: s) = Some r -> (length (c :: s) <= length r)%nat) ->
  re_sub p repl (c :: s) = c :: re_sub p repl s.
Proof.
  intros H. rewrite re_sub_cons.
  destruct (re_match p (c :: s)) as [r|]; [|done].
  specialize (H r eq_refl).
  by assert ((length r <? length (c :: s))%nat = false) as ->
    by (apply Nat.ltb_ge; lia).
Qed.

(** Where the replacement is empty, what follows any position of the result
    is itself the result of the scan on some text. *)
Lemma re_sub_suffix_result p s t :
  t `suffix_of` re_sub p [] s -> exists s', t = re_sub p [] s'.
Proof.
  revert t.
  apply (re_sub_ind p [] (fun s out =>
    forall t, t `suffix_of` out -> exists s', t = re_sub p [] s')).
  - intros t ->%suffix_nil_inv. by exists [].
  - intros c u Hkeep IH t [[|x m] Hm]; simpl in Hm.
    + exists (c :: u). by rewrite re_sub_keep.
    + injection Hm as _ Hm. apply IH. by exists m.
  - intros c u r _ _ IH t Ht. by apply IH.
Qed.

Lemma remove_timestamps_no_match s :
  no_match re_timestamp (re_sub re_timestamp [] s).
Proof.
  intros t [s' ->]%re_sub_suffix_result. apply remove_timestamps_head.
Qed.

Lemma strip_no_match p s : no_match p s -> no_match p (strip s).
Proof.
  intros H. unfold strip.
  destruct (lstrip_suffix s) as [m Hm]. rewrite Hm in H.
  apply no_match_app in H as [_ H].
  destruct (rstrip_prefix (lstrip s)) as [k Hk]. rewrite Hk in H.
  by apply no_match_app in H as [H _].
Qed.

Lemma clean_transcript_no_match_timestamp x :
  no_match re_timestamp (clean_transcript x).
Proof.
  rewrite clean_transcript_unfold.
  apply strip_no_match, remove_timestamps_no_match.
Qed.

Lemma group_then_app k g s :
  Forall (fun c => is_digit c = true) g -> (2 <= length g)%nat ->
  group_then k (g ++ s) = k (skip Digit s).
Proof.
  intros Hg Hlen. unfold group_then. rewrite run_app, skip_app by done.
  by assert ((2 <=? length g + run Digit s)%nat = true) as ->
    by (apply Nat.leb_le; lia).
Qed.

(** A text that starts with a timestamp, written out: three groups of two
    or more digits with one separator after the first and the second;
    everything up to the end of the third run of digits is matched. *)
Lemma timestamp_shape g1 c1 g2 c2 g3 post :
  Forall (fun c => is_digit c = true) g1 -> (2 <= length g1)%nat ->
  mem c1 separators = true ->
  Forall (fun c => is_digit c = true) g2 -> (2 <= length g2)%nat ->
  mem c2 separators = true ->
  Forall (fun c => is_digit c = true) g3 -> (2 <= length g3)%nat ->
  re_match re_timestamp (g1 ++ c1 :: g2 ++ c2 :: g3 ++ post)
  = Some (skip Digit post).
Proof.
  intros Hg1 Hl1 Hc1 Hg2 Hl2 Hc2 Hg3 Hl3.
  rewrite re_match_timestamp. unfold timestamp_rest.
  rewrite group_then_app by done.
  cbn [skip atom_match]. rewrite (separator_not_digit _ Hc1).
  cbn [sep_then]. rewrite Hc1.
  rewrite group_then_app by done.
  cbn [skip atom_match]. rewrite (separator_not_digit _ Hc2).
  cbn [sep_then]. rewrite Hc2.
  by rewrite group_then_app by done.
Qed.

(** X1. The output of the sanitizer contains no timestamp: it is never of
    the form [pre ++ g1 ++ c1 :: g2 ++ c2 :: g3 ++ post] with [g1], [g2],
    [g3] runs of two or more decimal digits and [c1], [c2] a colon or a
    period. *)
Theorem clean_transcript_no_timestamp x pre g1 c1 g2 c2 g3 post :
  Forall (fun c => is_digit c = true) g1 -> (2 <= length g1)%nat ->
  mem c1 separators = true ->
  Forall (fun c => is_digit c = true) g2 -> (2 <= length g2)%nat ->
  mem c2 separators = true ->
  Forall (fun c => is_digit c = true) g3 -> (2 <= length g3)%nat ->
  clean_transcript x <> pre ++ g1 ++ c1 :: g2 ++ c2 :: g3 ++ post.
Proof.
  intros Hg1 Hl1 Hc1 Hg2 Hl2 Hc2 Hg3 Hl3 Hx.
  pose proof (clean_transcript_no_match_timestamp x
                (g1 ++ c1 :: g2 ++ c2 :: g3 ++ post)) as Hno.
  rewrite timestamp_shape in Hno by done.
  discriminate Hno. rewrite Hx. by exists pre.
Qed.

Lemma clean_transcript_no_timestamp_witness :
  clean_transcript (str "Time: 00:01:23 end") <>
  str "Time: " ++ str "00" ++ ch ":" :: str "01" ++ ch ":" :: str "23" ++ str " end".
Proof.
  apply (clean_transcript_no_timestamp (str "Time: 00:01:23 end") (str "Time: ")
           (str "00") (ch ":") (str "01") (ch ":") (str "23") (str " end"));
    first [ by repeat constructor | simpl; lia | reflexivity ].
Defined.

(** X2. Line 45 deletes a whole timestamp and nothing around it: after a
    prefix without digits, three groups of two or more digits joined by a
    colon or a period are removed up to the last digit of the third group,
    and the scan goes on with what follows. *)
Theorem timestamp_removed pre g1 c1 g2 c2 g3 rest :
  Forall (fun c => is_digit c = false) pre ->
  Forall (fun c => is_digit c = true) g1 -> (2 <= length g1)%nat ->
  mem c1 separators = true ->
  Forall (fun c => is_digit c = true) g2 -> (2 <= length g2)%nat ->
  mem c2 separators = true ->
  Forall (fun c => is_digit c = true) g3 -> (2 <= length g3)%nat ->
  starts_with_digit rest = false ->
  re_sub re_timestamp [] (pre ++ g1 ++ c1 :: g2 ++ c2 :: g3 ++ rest) =
  pre ++ re_sub re_timestamp [] rest.
Proof.
  intros Hpre Hg1 Hl1 Hc1 Hg2 Hl2 Hc2 Hg3 Hl3 Hrest.
  rewrite (re_sub_app_no_head re_timestamp [] Digit) by (done || apply head_timestamp).
  f_equal.
  pose proof (timestamp_shape g1 c1 g2 c2 g3 rest Hg1 Hl1 Hc1 Hg2 Hl2 Hc2 Hg3 Hl3)
    as Hm.
  rewrite (skip_stop Digit rest) in Hm by (by destruct rest).
  destruct g1 as [|d g1]; [simpl in Hl1; lia|]. simpl app in *.
  rewrite (re_sub_replace _ _ _ _ _ Hm); [done|].
  eapply re_match_shorter; [apply head_timestamp | done].
Qed.

Lemma timestamp_removed_witness :
  re_sub re_timestamp [] (str "at 100:01:23.5 sharp") = str "at .5 sharp".
Proof.
  pose proof (timestamp_removed (str "at ") (str "100") (ch ":") (str "01")
                (ch ":") (str "23") (str ".5 sharp")) as H.
  apply H; first [ by repeat constructor | simpl; lia | reflexivity ].
Defined.

(** ** What the sanitizer keeps and what it deletes *)

Lemma clean_transcript_elem_in c x :
  c ∈ clean_transcript x -> c ∈ x \/ c = SPACE.
Proof.
  rewrite clean_transcript_unfold. intros Hc%strip_elem.
  apply re_sub_elem in Hc as [Hc|Hc]; [|by apply elem_of_nil in Hc].
  unfold before_timestamps in Hc.
  rewrite re_sub_newlines_id in Hc by apply re_sub_spaces_no_pair.
  apply re_sub_elem in Hc as [Hc|Hc];
    [|apply list_elem_of_singleton in Hc; auto].
  apply re_sub_elem in Hc as [Hc|Hc]; [|by apply elem_of_nil in Hc].
  apply re_sub_elem in Hc as [Hc|Hc]; [|by apply elem_of_nil in Hc].
  auto.
Qed.

Lemma clean_transcript_shorter x :
  (length (clean_transcript x) <= length x)%nat.
Proof.
  unfold clean_transcript.
  etransitivity; [apply strip_length|].
  repeat (etransitivity; [apply re_sub_length; simpl; lia|]). done.
Qed.

Lemma clean_transcript_edges x :
  starts_with_space (clean_transcript x) = false /\
  ends_with_space (clean_transcript x) = false.
Proof. rewrite clean_transcript_unfold. apply strip_stripped. Qed.

(** X3. The output neither starts nor ends with white space, so the second
    [strip] of line 110 changes nothing. *)
Theorem clean_transcript_stripped x :
  starts_with_space (clean_transcript x) = false /\
  ends_with_space (clean_transcript x) = false /\
  strip (clean_transcript x) = clean_transcript x.
Proof.
  destruct (clean_transcript_edges x) as [H1 H2].
  split; [done|]. split; [done|]. by apply strip_id.
Qed.

(** X4. The sanitizer only deletes characters and puts single spaces in:
    the output is never longer than the input, and each of its characters
    is a character of the input or a space. *)
Theorem clean_transcript_only_deletes x :
  (length (clean_transcript x) <= length x)%nat /\
  Forall (fun c => c ∈ x \/ c = SPACE) (clean_transcript x).
Proof.
  split; [apply clean_transcript_shorter|].
  apply Forall_forall. intros c. apply clean_transcript_elem_in.
Qed.

(** X5. After line 43 no two white-space characters are adjacent; line 44,
    which looks for two newlines in a row, therefore never replaces
    anything. *)
Theorem newline_step_never_fires s :
  no_space_pair (re_sub re_spaces [SPACE] s) = true /\
  re_sub re_newlines [NL] (re_sub re_spaces [SPACE] s) =
  re_sub re_spaces [SPACE] s.
Proof.
  split; [apply re_sub_spaces_no_pair|].
  apply re_sub_newlines_id, re_sub_spaces_no_pair.
Qed.

(** X6. Line 42 deletes exactly the characters of its class and keeps all
    the others, in their order. *)
Theorem punctuation_step_filter s :
  re_sub re_punct [] s = List.filter (fun c => negb (mem c punctuation)) s.
Proof.
  induction s as [|c s IH]; [done|].
  rewrite re_sub_cons, re_match_punct.
  change (List.filter ?f (c :: s))
    with (if f c then c :: List.filter f s else List.filter f s).
  cbv beta. destruct (mem c punctuation); cbn [negb].
  - assert ((length s <? length (c :: s))%nat = true) as ->
      by (apply Nat.ltb_lt; simpl; lia).
    by rewrite IH.
  - by rewrite IH.
Qed.

Lemma filter_skip_space s :
  List.filter (fun c => negb (is_space c)) (skip Space s) =
  List.filter (fun c => negb (is_space c)) s.
Proof.
  induction s as [|c s IH]; [done|]. cbn [skip atom_match].
  destruct (is_space c) eqn:Hc; [|done].
  simpl List.filter. by rewrite Hc.
Qed.

(** X7. Line 43 touches white space only: the characters that are not white
    space are all kept, in their order. *)
Theorem spaces_step_keeps_text s :
  List.filter (fun c => negb (is_space c)) (re_sub re_spaces [SPACE] s) =
  List.filter (fun c => negb (is_space c)) s.
Proof.
  apply (re_sub_ind re_spaces [SPACE] (fun s out =>
    List.filter (fun c => negb (is_space c)) out =
    List.filter (fun c => negb (is_space c)) s)).
  - done.
  - intros c t _ IH. simpl. by rewrite IH.
  - intros c t r Hm _ IH.
    unfold re_spaces in Hm. rewrite re_match_at_least_2 in Hm.
    destruct (2 <=? _)%nat; [|done].
    assert (skip Space (c :: t) = r) as Hr by congruence. clear Hm.
    change ([SPACE] ++ ?l) with (SPACE :: l).
    change (List.filter ?f (SPACE :: ?l)) with (List.filter f l).
    by rewrite IH, <- Hr, filter_skip_space.
Qed.

(** X8. A text made of white space only is sanitized to the empty text. *)
Theorem whitespace_only_gives_empty x :
  Forall (fun c => is_space c = true) x -> clean_transcript x = [].
Proof.
  intros Hx. destruct (clean_transcript_edges x) as [Hstart _].
  destruct (clean_transcript x) as [|c y] eqn:E; [done|]. exfalso.
  assert (c ∈ clean_transcript x) as Hc by (rewrite E; apply elem_of_cons; by left).
  simpl in Hstart.
  apply clean_transcript_elem_in in Hc as [Hc| ->]; [|done].
  rewrite Forall_forall in Hx. specialize (Hx c Hc). congruence.
Qed.

Lemma whitespace_only_gives_empty_witness :
  clean_transcript [SPACE; NL; NL; 9; 160; SPACE] = [].
Proof.
  apply whitespace_only_gives_empty. by repeat constructor.
Defined.

(** ** Fixed points *)

Lemma re_sub_same_length p repl s :
  (length repl <= 1)%nat ->
  (forall t r, re_match p t = Some r -> (length r + length repl < length t)%nat) ->
  length (re_sub p repl s) = length s -> re_sub p repl s = s.
Proof.
  intros Hrepl Hp.
  apply (re_sub_ind p repl (fun s out => length out = length s -> out = s)).
  - done.
  - intros c t _ IH [= Hlen]. by rewrite IH.
  - intros c t r Hm _ _ Hlen. exfalso.
    pose proof (Hp _ _ Hm). pose proof (re_sub_length p repl r Hrepl).
    rewrite length_app in Hlen. lia.
Qed.

Lemma strip_same_length s : length (strip s) = length s -> strip s = s.
Proof.
  unfold strip. intros Hlen.
  destruct (lstrip_suffix s) as [m Hm].
  destruct (rstrip_prefix (lstrip s)) as [k Hk].
  assert (length s = length m + length (lstrip s))%nat as H1
    by (rewrite Hm at 1; apply length_app).
  assert (length (lstrip s) = length (rstrip (lstrip s)) + length k)%nat as H2
    by (rewrite Hk at 1; apply length_app).
  assert (m = []) as -> by (apply length_zero_iff_nil; lia).
  assert (k = []) as -> by (apply length_zero_iff_nil; lia).
  rewrite app_nil_r in Hk. simpl in Hm. congruence.
Qed.

Lemma at_least_2_match_long a t r :
  re_match [at_least 2 a] t = Some r -> (length r + 1 < length t)%nat.
Proof.
  rewrite re_match_at_least_2.
  destruct (2 <=? run a t)%nat eqn:E; [|done]. intros [= <-].
  apply Nat.leb_le in E. pose proof (skip_length a t). lia.
Qed.

Lemma deleted_match_long p a t r :
  head_atom p a -> re_match p t = Some r ->
  (length r + length (@nil char) < length t)%nat.
Proof. intros Hh Hm. simpl. pose proof (re_match_shorter _ _ _ _ Hh Hm). lia. Qed.

(** Each step of a run that returns its input has left it as it was. *)
Lemma clean_transcript_fixed_steps y :
  clean_transcript y = y ->
  re_sub re_tag [] y = y /\ re_sub re_spaces [SPACE] y = y.
Proof.
  intros Hfix.
  pose proof (f_equal length Hfix) as Hlen. unfold clean_transcript in Hlen.
  set (t1 := re_sub re_tag [] y) in *.
  set (t2 := re_sub re_punct [] t1) in *.
  set (t3 := re_sub re_spaces [SPACE] t2) in *.
  set (t4 := re_sub re_newlines [NL] t3) in *.
  set (t5 := re_sub re_timestamp [] t4) in *.
  pose proof (strip_length t5) as L6.
  pose proof (re_sub_length re_timestamp [] t4 ltac:(simpl; lia)) as L5.
  pose proof (re_sub_length re_newlines [NL] t3 ltac:(simpl; lia)) as L4.
  pose proof (re_sub_length re_spaces [SPACE] t2 ltac:(simpl; lia)) as L3.
  pose proof (re_sub_length re_punct [] t1 ltac:(simpl; lia)) as L2.
  pose proof (re_sub_length re_tag [] y ltac:(simpl; lia)) as L1.
  fold t1 in L1. fold t2 in L2. fold t3 in L3. fold t4 in L4. fold t5 in L5.
  assert (t1 = y) as E1.
  { apply re_sub_same_length; [simpl; lia | | fold t1; lia].
    intros t r. apply (deleted_match_long _ _ _ _ head_tag). }
  assert (t2 = t1) as E2.
  { apply re_sub_same_length; [simpl; lia | | fold t2; lia].
    intros t r. apply (deleted_match_long _ _ _ _ head_punct). }
  assert (t3 = t2) as E3.
  { apply re_sub_same_length; [simpl; lia | | fold t3; lia].
    intros t r. apply at_least_2_match_long. }
  split; [done|]. rewrite <- E1 at 2. rewrite <- E2, <- E3 at 1.
  unfold t3. by rewrite E2, E1.
Qed.

(** X9. The texts that the sanitizer returns unchanged are exactly those in
    which line 41 finds no tag, with no character of the class of line 42,
    no two adjacent white-space characters, no timestamp, and no white space
    at either end. So a second pass changes nothing exactly when the result
    of the first has no tag left and no two adjacent white-space
    characters. *)
Theorem clean_transcript_fixed_points y :
  (clean_transcript y = y <->
   no_match re_tag y /\ Forall (fun c => c ∉ punctuation) y /\
   no_space_pair y = true /\ no_match re_timestamp y /\
   starts_with_space y = false /\ ends_with_space y = false) /\
  (clean_transcript (clean_transcript y) = clean_transcript y <->
   no_match re_tag (clean_transcript y) /\
   no_space_pair (clean_transcript y) = true).
Proof.
  assert (forall z,
    no_match re_tag z -> Forall (fun c => c ∉ punctuation) z ->
    no_space_pair z = true -> no_match re_timestamp z ->
    starts_with_space z = false -> ends_with_space z = false ->
    clean_transcript z = z) as Hback.
  { intros z Htag Hp Hsp Hts Hl Hr. unfold clean_transcript.
    rewrite (re_sub_none re_tag) by done.
    rewrite (re_sub_no_head re_punct [] (OneOf punctuation));
      [|apply head_punct|].
    2:{ eapply Forall_impl; [exact Hp|]. intros c Hc. by apply mem_false. }
    rewrite re_sub_spaces_id, re_sub_newlines_id by done.
    rewrite re_sub_none by done. by apply strip_id. }
  assert (forall z, clean_transcript z = z ->
    no_match re_tag z /\ no_space_pair z = true) as Hforth.
  { intros z Hz. destruct (clean_transcript_fixed_steps z Hz) as [H1 H3].
    split; [by apply (re_sub_fixed _ _ _ head_tag)|].
    rewrite <- H3. apply re_sub_spaces_no_pair. }
  split; split.
  - intros Hfix. destruct (Hforth y Hfix) as [Htag Hsp].
    split; [done|]. split.
    { rewrite <- Hfix. apply Forall_forall. intros c. apply clean_transcript_elem. }
    split; [done|]. split.
    { rewrite <- Hfix. apply clean_transcript_no_match_timestamp. }
    rewrite <- Hfix. apply clean_transcript_edges.
  - intros (Htag & Hp & Hsp & Hts & Hl & Hr). by apply Hback.
  - apply Hforth.
  - intros [Htag Hsp]. apply Hback; try done.
    + apply Forall_forall. intros c. apply clean_transcript_elem.
    + apply clean_transcript_no_match_timestamp.
    + apply clean_transcript_edges.
    + apply clean_transcript_edges.
Qed.

(** ** Line 43: a run of white space *)

Lemma spaces_prefix_kept repl pre s :
  no_space_pair pre = true -> ends_with_space pre = false ->
  re_sub re_spaces repl (pre ++ s) = pre ++ re_sub re_spaces repl s.
Proof.
  induction pre as [|c pre IH]; [done|]. intros Hpair Hend.
  apply no_space_pair_cons in Hpair as [Hpair Hc].
  assert (re_match re_spaces (c :: pre ++ s) = None) as Hm.
  { unfold re_spaces. rewrite re_match_at_least_2.
    cbn [run atom_match]. destruct (is_space c) eqn:E; [|done].
    specialize (Hc eq_refl). destruct pre as [|x pre]; [simpl in Hend; congruence|].
    simpl in Hc. cbn [app run atom_match]. by rewrite Hc. }
  simpl app. rewrite re_sub_copy by done. f_equal.
  destruct pre as [|x pre]; [done|]. by apply IH.
Qed.

(** X10. Line 43 replaces a run of two or more white-space characters of any
    kind (spaces, tabs, newlines, no-break spaces) by exactly one space, and
    keeps the text before it: in [pre ++ ws ++ rest], where [pre] has no two
    adjacent white-space characters and does not end with one, [ws] is the
    whole run and becomes one space. *)
Theorem whitespace_run_collapsed pre ws rest :
  no_space_pair pre = true -> ends_with_space pre = false ->
  Forall (fun c => is_space c = true) ws -> (2 <= length ws)%nat ->
  starts_with_space rest = false ->
  re_sub re_spaces [SPACE] (pre ++ ws ++ rest) =
  pre ++ SPACE :: re_sub re_spaces [SPACE] rest.
Proof.
  intros Hpair Hend Hws Hlen Hrest.
  rewrite spaces_prefix_kept by done. f_equal.
  assert (re_match re_spaces (ws ++ rest) = Some rest) as Hm.
  { unfold re_spaces. rewrite re_match_at_least_2, run_app, skip_app by done.
    rewrite (skip_stop Space rest) by (by destruct rest).
    by assert ((2 <=? length ws + run Space rest)%nat = true) as ->
      by (apply Nat.leb_le; lia). }
  destruct ws as [|w ws]; [simpl in Hlen; lia|]. simpl app in *.
  rewrite (re_sub_replace _ _ _ _ _ Hm); [done|].
  eapply re_match_shorter; [apply head_spaces | done].
Qed.

Lemma whitespace_run_collapsed_witness :
  re_sub re_spaces [SPACE] (str "Hello world" ++ [NL; 9; NL] ++ str "again") =
  str "Hello world again".
Proof.
  pose proof (whitespace_run_collapsed (str "Hello world") [NL; 9; NL]
                (str "again")) as H.
  apply H; first [ by repeat constructor | simpl; lia | reflexivity ].
Defined.

(** * Further properties of the handlers *)

(** A reply of a handler is what its [try] block returned, or the 500 made
    of an ordinary exception that the block raised. *)
Lemma try_except_reply (m : M Reply) w r w' :
  try_except m (fun e => error_response 500 (exn_text e)) w = (inr r, w') ->
  m w = (inr r, w') \/
  exists e,
    m w = (inl e, w') /\ ordinary e = true /\
    r = JSONResponse 500 (error_body (exn_text e)).
Proof.
  destruct (m w) as [[e|r1] w1] eqn:E.
  - destruct (isinstance e (str "Exception")) eqn:Hi.
    + destruct (no_surrogate (exn_text e)) eqn:Ht.
      * rewrite (try_except_replies _ _ _ _ E)
          by (unfold ordinary; by rewrite Hi, Ht).
        intros [= <- <-]. right. exists e.
        unfold ordinary. by rewrite Hi, Ht.
      * by destruct (try_except_unrendered _ _ _ _ E Hi Ht) as (text & _ & ->).
    + by rewrite (try_except_passes _ _ _ _ _ E Hi).
  - rewrite (try_except_returns _ _ _ _ _ E). intros [= <- <-]. by left.
Qed.

(** The values that are false on lines 103 and 123, and no other. *)
Lemma truthy_false v :
  truthy v = false <->
  v ∈ [PNone; PBool false; PInt 0; PFloat (S754_zero false);
       PFloat (S754_zero true); PStr []; PList []; PDict []].
Proof.
  split.
  - destruct v as [|[]|z|f|s|l|d]; simpl; try done.
    + intros _. set_solver.
    + intros _. set_solver.
    + intros ->%negb_false_iff%Z.eqb_eq. set_solver.
    + destruct f as [[]| | |]; try done; intros _; set_solver.
    + intros Hs%negb_false_iff%bool_decide_eq_true. subst. set_solver.
    + destruct l; [|done]. intros _. set_solver.
    + destruct d; [|done]. intros _. set_solver.
  - rewrite !elem_of_cons, elem_of_nil.
    by intros [->|[->|[->|[->|[->|[->|[->|[->|[]]]]]]]]].
Qed.

Section MoreServiceProperties.

Variable rt : Runtime.
Variable svc : Services.

Implicit Types (request : Request) (w : World) (d : list (pystr * pyval)).

(** Past the check of line 103, or of line 123, no reply is a 400. *)
Lemma transcribe_endpoint_past_check request d file_id w body w' :
  request_json request = inr (PDict d) ->
  assoc (str "file_id") d = Some file_id ->
  truthy file_id = true ->
  transcribe_endpoint rt svc request w <> (inr (JSONResponse 400 body), w').
Proof.
  intros Hd Hid Htrue.
  rewrite (transcribe_endpoint_run _ _ _ _ _ _ Hd Hid Htrue).
  intros [H|(e & _ & _ & [=])]%try_except_reply.
  revert H. unfold bind, ret.
  destruct (download_mp3_from_drive rt svc file_id w) as [[?|mp3_path] w1];
    [done|].
  destruct (transcribe_audio rt svc mp3_path w1) as [[?|transcript] w2]; [done|].
  by destruct (os_remove rt mp3_path w2) as [[?|[]] w3].
Qed.

Lemma generate_report_endpoint_past_check request d transcript w body w' :
  request_json request = inr (PDict d) ->
  assoc (str "transcript") d = Some transcript ->
  truthy transcript = true ->
  generate_report_endpoint svc request w <> (inr (JSONResponse 400 body), w').
Proof.
  intros Hd Ht Htrue.
  rewrite (generate_report_endpoint_run _ _ _ _ _ Hd Ht Htrue).
  intros [H|(e & _ & _ & [=])]%try_except_reply.
  revert H. unfold bind, ret.
  by destruct (generate_llm_report svc _ transcript w) as [[?|report] w1].
Qed.

(** X11. A [file_id] (or a [transcript]) that is present and is null,
    false, the integer zero, a float zero of either sign, the empty string,
    the empty list or the empty object is answered like a missing one: 400
    with [Missing file_id] (or [Missing transcript]) as its [error], and
    nothing is called. Any other value passes the check: whatever happens
    next, the reply is not a 400. *)
Theorem falsy_fields_rejected request d v w :
  request_json request = inr (PDict d) ->
  (v ∈ [PNone; PBool false; PInt 0; PFloat (S754_zero false);
        PFloat (S754_zero true); PStr []; PList []; PDict []] ->
   (assoc (str "file_id") d = Some v ->
    transcribe_endpoint rt svc request w =
    (inr (JSONResponse 400 (PDict [(str "error", PStr (str "Missing file_id"))])),
     w)) /\
   (assoc (str "transcript") d = Some v ->
    generate_report_endpoint svc request w =
    (inr (JSONResponse 400
            (PDict [(str "error", PStr (str "Missing transcript"))])),
     w))) /\
  (v ∉ [PNone; PBool false; PInt 0; PFloat (S754_zero false);
        PFloat (S754_zero true); PStr []; PList []; PDict []] ->
   (assoc (str "file_id") d = Some v ->
    forall body w',
      transcribe_endpoint rt svc request w <> (inr (JSONResponse 400 body), w')) /\
   (assoc (str "transcript") d = Some v ->
    forall body w',
      generate_report_endpoint svc request w
      <> (inr (JSONResponse 400 body), w'))).
Proof.
  intros Hd. split.
  - intros Hv%truthy_false. split; intros Hk.
    + apply (transcribe_endpoint_missing _ _ _ d v); [done | by rewrite Hk | done].
    + apply (generate_report_endpoint_missing _ _ d v);
        [done | by rewrite Hk | done].
  - intros Hv. assert (truthy v = true) as Htrue.
    { destruct (truthy v) eqn:E; [done|]. by apply truthy_false in E. }
    split; intros Hk body w'.
    + by eapply transcribe_endpoint_past_check.
    + by eapply generate_report_endpoint_past_check.
Qed.

(** X12. A body that is valid JSON but not an object (null, a boolean, a
    number, a string, a list) has no [get]: both handlers answer 500 with
    the text of the [AttributeError], which names the type of the body, and
    nothing is called. *)
Theorem non_object_body_is_an_error request data name w :
  request_json request = inr data ->
  (data = PNone /\ name = str "NoneType") \/
  (exists b, data = PBool b /\ name = str "bool") \/
  (exists z, data = PInt z /\ name = str "int") \/
  (exists f, data = PFloat f /\ name = str "float") \/
  (exists s, data = PStr s /\ name = str "str") \/
  (exists l, data = PList l /\ name = str "list") ->
  transcribe_endpoint rt svc request w =
  (inr (JSONResponse 500
          (PDict [(str "error",
                   PStr (str "'" ++ name
                         ++ str "' object has no attribute 'get'"))])), w) /\
  generate_report_endpoint svc request w =
  (inr (JSONResponse 500
          (PDict [(str "error",
                   PStr (str "'" ++ name
                         ++ str "' object has no attribute 'get'"))])), w).
Proof.
  intros Hd Hdata.
  assert (exists e,
    py_get data (str "file_id") PNone = inl e /\
    py_get data (str "prompt") (PStr default_prompt) = inl e /\
    ordinary e = true /\
    exn_text e = str "'" ++ name ++ str "' object has no attribute 'get'")
    as (e & He1 & He2 & Hord & Htext).
  { destruct Hdata as
      [[-> ->]|[(b & -> & ->)|[(z & -> & ->)|[(f & -> & ->)|[(s & -> & ->)
       |(l & -> & ->)]]]]]; by eexists. }
  rewrite <- Htext. split.
  - apply (try_except_replies _ _ e); [|done].
    unfold bind, lift. by rewrite Hd, He1.
  - apply (try_except_replies _ _ e); [|done].
    unfold bind, lift. by rewrite Hd, He2.
Qed.

(** X13. /generate-report calls the language model only for a string
    transcript and a string (or absent) prompt: when the prompt is present
    and not a string, or the transcript is anything but a string, the reply
    is an error body with status 400 or 500 and nothing is called. *)
Theorem report_needs_strings request d w :
  request_json request = inr (PDict d) ->
  (exists p, assoc (str "prompt") d = Some p /\ forall s, p <> PStr s) \/
  (forall t, assoc (str "transcript") d <> Some (PStr t)) ->
  exists status message,
    generate_report_endpoint svc request w =
    (inr (JSONResponse status (error_body message)), w) /\
    (status = 400%Z \/ status = 500%Z).
Proof.
  intros Hd Hbad.
  destruct (assoc (str "transcript") d) as [t|] eqn:Ht.
  2:{ exists 400%Z, (str "Missing transcript"). split; [|by left].
      apply (generate_report_endpoint_missing _ _ d PNone);
        [done | by rewrite Ht | done]. }
  destruct (truthy t) eqn:Htrue.
  2:{ exists 400%Z, (str "Missing transcript"). split; [|by left].
      apply (generate_report_endpoint_missing _ _ d t);
        [done | by rewrite Ht | done]. }
  rewrite (generate_report_endpoint_run _ _ _ _ _ Hd Ht Htrue).
  assert (exists e,
    generate_llm_report svc
      (from_option id (PStr default_prompt) (assoc (str "prompt") d)) t w
    = (inl e, w) /\ ordinary e = true) as (e & He & Hord).
  { unfold generate_llm_report, bind, lift.
    destruct Hbad as [(p & Hp & Hns)|Hnt].
    - rewrite Hp. cbn [from_option id].
      destruct p; try (by eexists); by destruct (Hns s).
    - destruct (add_to_str _ _) as [e|with_label] eqn:E.
      { exists e. split; [done|]. by eapply ordinary_add_to_str. }
      destruct t; try done; try (by eexists); by destruct (Hnt s). }
  exists 500%Z, (exn_text e). split; [|by right].
  apply try_except_replies; [|done]. unfold bind. by rewrite He.
Qed.

(** X14. A report: for a string transcript that is not empty and a string
    prompt (the default one when the key is absent), when the language
    model answers and its first choice has a content, the reply is the
    plain dict with that content stripped as [report]; one call was made,
    with the assembled text, and the files are as before. *)
Theorem report_generated request d p t response c rest w :
  request_json request = inr (PDict d) ->
  from_option id (PStr default_prompt) (assoc (str "prompt") d) = PStr p ->
  assoc (str "transcript") d = Some (PStr t) ->
  t <> [] ->
  chat_completions_create svc (chat_messages (p ++ transcript_separator ++ t))
    = inr response ->
  choices response = Some c :: rest ->
  generate_report_endpoint svc request w =
  (inr (Plain (PDict [(str "report", PStr (strip c))])),
   {| files := files w;
      calls := calls w ++
        [ChatCompletionsCreate (str "gpt-4")
           (chat_messages (p ++ transcript_separator ++ t)) (str "0.7")] |}).
Proof.
  intros Hd Hp Ht Hne Hchat Hc.
  rewrite (generate_report_endpoint_run _ _ _ _ _ Hd Ht), Hp
    by (simpl; by rewrite bool_decide_eq_false_2).
  apply try_except_returns.
  unfold generate_llm_report, bind, lift, call, first_choice_text. simpl.
  rewrite <- app_assoc, Hchat, Hc. done.
Qed.

(** X15. When the language model fails, the reply is 500 with the text of
    the failure: the text of the exception that the call raised, when that
    is an ordinary one, [list index out of range] when the answer has no
    choice, and the text of the [AttributeError] when the content of the
    first choice is absent. The call is in the log all the same. *)
Theorem report_failures request d p t w :
  request_json request = inr (PDict d) ->
  from_option id (PStr default_prompt) (assoc (str "prompt") d) = PStr p ->
  assoc (str "transcript") d = Some (PStr t) ->
  t <> [] ->
  forall answer message,
    chat_completions_create svc (chat_messages (p ++ transcript_separator ++ t))
      = answer ->
    (exists e, answer = inl e /\ ordinary e = true /\ message = exn_text e) \/
    (exists response,
        answer = inr response /\ choices response = [] /\
        message = str "list index out of range") \/
    (exists response rest,
        answer = inr response /\ choices response = None :: rest /\
        message = str "'NoneType' object has no attribute 'strip'") ->
    generate_report_endpoint svc request w =
    (inr (JSONResponse 500 (PDict [(str "error", PStr message)])),
     {| files := files w;
        calls := calls w ++
          [ChatCompletionsCreate (str "gpt-4")
             (chat_messages (p ++ transcript_separator ++ t)) (str "0.7")] |}).
Proof.
  intros Hd Hp Ht Hne answer message Hchat Hm.
  rewrite (generate_report_endpoint_run _ _ _ _ _ Hd Ht), Hp
    by (simpl; by rewrite bool_decide_eq_false_2).
  assert (exists e,
    generate_llm_report svc (PStr p) (PStr t) w =
    (inl e,
     {| files := files w;
        calls := calls w ++
          [ChatCompletionsCreate (str "gpt-4")
             (chat_messages (p ++ transcript_separator ++ t)) (str "0.7")] |}) /\
    ordinary e = true /\ exn_text e = message) as (e & He & Hord & <-).
  { unfold generate_llm_report, bind, lift, call, first_choice_text. simpl.
    rewrite <- app_assoc, Hchat.
    destruct Hm as [(e & -> & Hord & ->)|[(r & -> & Hc & ->)|(r & rest & -> & Hc & ->)]].
    - by exists e.
    - rewrite Hc. by eexists.
    - rewrite Hc. by eexists. }
  apply (try_except_replies _ _ e); [|done]. unfold bind. by rewrite He.
Qed.

(** X16. /generate-report never touches the files, and makes at most one
    outbound call, to the language model. *)
Theorem report_endpoint_world request w :
  files (generate_report_endpoint svc request w).2 = files w /\
  (calls (generate_report_endpoint svc request w).2 = calls w \/
   exists messages,
     calls (generate_report_endpoint svc request w).2 =
     calls w ++ [ChatCompletionsCreate (str "gpt-4") messages (str "0.7")]).
Proof.
  unfold generate_report_endpoint. rewrite !try_except_world.
  unfold bind, lift, ret.
  destruct (request_json request) as [?|data]; [by split; [|left]|].
  destruct (py_get data _ (PStr _)) as [?|prompt]; [by split; [|left]|].
  destruct (py_get data _ PNone) as [?|transcript]; [by split; [|left]|].
  destruct (negb (truthy transcript)).
  { rewrite error_response_literal. by split; [|left]. }
  unfold generate_llm_report, bind, lift, call.
  destruct (add_to_str _ _) as [?|with_label]; [by split; [|left]|].
  destruct (str_add _ _) as [?|full_input]; [by split; [|left]|].
  destruct (chat_completions_create svc _) as [?|response]; simpl.
  { split; [done|]. right. by eexists. }
  destruct (first_choice_text response); simpl;
    (split; [done|]; right; by eexists).
Qed.

(** A download whose every step succeeds. *)
Lemma download_mp3_success file_id token file_metadata name response w :
  service_account_token svc = inr token ->
  drive_files_get svc file_id = inr file_metadata ->
  assoc (str "name") file_metadata = Some (PStr name) ->
  requests_get svc (download_url rt file_id) (auth_headers token) = inr response ->
  status_code response = 200%Z ->
  open_wb rt (path_join rt (gettempdir rt) (splitext_root rt name ++ str ".mp3"))
    = None ->
  write_fault rt
    (path_join rt (gettempdir rt) (splitext_root rt name ++ str ".mp3"))
    (content response) = None ->
  download_mp3_from_drive rt svc file_id w =
  (inr (path_join rt (gettempdir rt) (splitext_root rt name ++ str ".mp3")),
   {| files :=
        <[path_join rt (gettempdir rt) (splitext_root rt name ++ str ".mp3")
          := content response]> (files w);
      calls := calls w ++
        [ServiceAccountToken; DriveFilesGet file_id;
         RequestsGet (download_url rt file_id) (auth_headers token)] |}).
Proof.
  intros Htok Hmeta Hname Hget Hcode Hopen Hwrite.
  unfold download_mp3_from_drive, bind, call, lift, raise, metadata_file_name,
    write_file, ret.
  simpl. rewrite Htok, Hmeta, Hname, Hget, Hcode. simpl.
  rewrite Hopen, Hwrite. by rewrite <- ?app_assoc.
Qed.

(** X17. A download that succeeds: with a token, a metadata entry whose
    [name] is a string, an answer 200 and a file system that lets the file
    be opened and written, the function returns the path made of the
    temporary directory and the root of the name followed by [.mp3]; the
    file at that path now holds the content of the answer, whatever was
    there before; the three calls are in the log in order. *)
Theorem download_success file_id token file_metadata name response w :
  service_account_token svc = inr token ->
  drive_files_get svc file_id = inr file_metadata ->
  assoc (str "name") file_metadata = Some (PStr name) ->
  requests_get svc (download_url rt file_id) (auth_headers token) = inr response ->
  status_code response = 200%Z ->
  open_wb rt (path_join rt (gettempdir rt) (splitext_root rt name ++ str ".mp3"))
    = None ->
  write_fault rt
    (path_join rt (gettempdir rt) (splitext_root rt name ++ str ".mp3"))
    (content response) = None ->
  download_mp3_from_drive rt svc file_id w =
  (inr (path_join rt (gettempdir rt) (splitext_root rt name ++ str ".mp3")),
   {| files :=
        <[path_join rt (gettempdir rt) (splitext_root rt name ++ str ".mp3")
          := content response]> (files w);
      calls := calls w ++
        [ServiceAccountToken; DriveFilesGet file_id;
         RequestsGet (download_url rt file_id) (auth_headers token)] |}).
Proof. apply download_mp3_success. Qed.


(** X19. When the metadata has no [name], line 58 raises [KeyError] before
    the content is requested: two calls only are in the log, and the
    handler answers 500 with the quoted key as its [error]. *)
Theorem download_without_name file_id token file_metadata w :
  service_account_token svc = inr token ->
  drive_files_get svc file_id = inr file_metadata ->
  assoc (str "name") file_metadata = None ->
  (exists e,
      download_mp3_from_drive rt svc file_id w =
      (inl e,
       {| files := files w;
          calls := calls w ++ [ServiceAccountToken; DriveFilesGet file_id] |}) /\
      exn_class e = str "KeyError" /\
      exn_text e = str "'name'") /\
  (forall request d,
      request_json request = inr (PDict d) ->
      assoc (str "file_id") d = Some file_id ->
      truthy file_id = true ->
      transcribe_endpoint rt svc request w =
      (inr (JSONResponse 500 (PDict [(str "error", PStr (str "'name'"))])),
       {| files := files w;
          calls := calls w ++ [ServiceAccountToken; DriveFilesGet file_id] |})).
Proof.
  intros Htok Hmeta Hname.
  assert (download_mp3_from_drive rt svc file_id w =
    (inl (KeyError (str "'name'")),
     {| files := files w;
        calls := calls w ++ [ServiceAccountToken; DriveFilesGet file_id] |}))
    as Hdl.
  { unfold download_mp3_from_drive, bind, call, lift, metadata_file_name.
    simpl. rewrite Htok, Hmeta, Hname. by rewrite <- ?app_assoc. }
  split; [by eexists|]. intros request d Hd Hid Htrue.
  rewrite (transcribe_endpoint_run _ _ _ _ _ _ Hd Hid Htrue).
  apply (try_except_replies _ _ (KeyError (str "'name'"))); [|done].
  unfold bind. by rewrite Hdl.
Qed.

(** X20. The whole of /transcribe when every service answers and the file
    can be opened and written: the drive is asked for the token, the
    metadata and the content, the content is what is sent to the
    transcription, the reply is the plain dict with the sanitized text, and
    the file is gone from the temporary directory, also when a file of that
    name was there before the request. *)
Theorem transcription_pipeline
    request d file_id token file_metadata name response result w :
  request_json request = inr (PDict d) ->
  assoc (str "file_id") d = Some file_id ->
  truthy file_id = true ->
  service_account_token svc = inr token ->
  drive_files_get svc file_id = inr file_metadata ->
  assoc (str "name") file_metadata = Some (PStr name) ->
  requests_get svc (download_url rt file_id) (auth_headers token) = inr response ->
  status_code response = 200%Z ->
  open_wb rt (path_join rt (gettempdir rt) (splitext_root rt name ++ str ".mp3"))
    = None ->
  write_fault rt
    (path_join rt (gettempdir rt) (splitext_root rt name ++ str ".mp3"))
    (content response) = None ->
  transcriptions_create svc (content response) = inr (PStr result) ->
  transcribe_endpoint rt svc request w =
  (inr (Plain (PDict [(str "transcript", PStr (clean_transcript result))])),
   {| files :=
        delete (path_join rt (gettempdir rt) (splitext_root rt name ++ str ".mp3"))
          (files w);
      calls := calls w ++
        [ServiceAccountToken; DriveFilesGet file_id;
         RequestsGet (download_url rt file_id) (auth_headers token);
         TranscriptionsCreate (str "whisper-1") (content response)
           (str "text") (str "en")] |}).
Proof.
  intros Hd Hid Htrue Htok Hmeta Hname Hget Hcode Hopen Hwrite Hstt.
  rewrite (transcribe_endpoint_run _ _ _ _ _ _ Hd Hid Htrue).
  apply try_except_returns. unfold bind.
  rewrite (download_mp3_success _ _ _ _ _ w Htok Hmeta Hname Hget Hcode Hopen Hwrite).
  unfold transcribe_audio, bind, read_file, call, lift, os_remove, ret. simpl.
  rewrite lookup_insert_eq, Hstt. simpl. rewrite lookup_insert_eq.
  rewrite delete_insert_eq.
  destruct (clean_transcript_edges result) as [H1 H2].
  rewrite strip_id by done. by rewrite <- ?app_assoc.
Qed.

(** X21. Whenever a handler returns, its reply has one of three shapes.
    For /transcribe: the plain dict whose [transcript] is the result of
    [clean_transcript] on some text, or the 400 with [Missing file_id], or
    a 500 whose [error] is a text without surrogates. For /generate-report
    likewise, with a stripped text as [report] and [Missing transcript]. *)
Theorem reply_shapes request w :
  (forall r w',
      transcribe_endpoint rt svc request w = (inr r, w') ->
      (exists t,
          r = Plain (PDict [(str "transcript", PStr (clean_transcript t))])) \/
      r = JSONResponse 400 (PDict [(str "error", PStr (str "Missing file_id"))]) \/
      (exists message,
          r = JSONResponse 500 (PDict [(str "error", PStr message)]) /\
          no_surrogate message = true)) /\
  (forall r w',
      generate_report_endpoint svc request w = (inr r, w') ->
      (exists c, r = Plain (PDict [(str "report", PStr (strip c))])) \/
      r = JSONResponse 400
            (PDict [(str "error", PStr (str "Missing transcript"))]) \/
      (exists message,
          r = JSONResponse 500 (PDict [(str "error", PStr message)]) /\
          no_surrogate message = true)).
Proof.
  split; intros r w' [H|(e & _ & [_ He]%andb_true_iff & ->)]%try_except_reply;
    try (right; right; by exists (exn_text e)).
  - revert H. unfold bind, lift, ret.
    destruct (request_json request) as [?|data]; [done|].
    destruct (py_get data _ _) as [?|file_id]; [done|].
    destruct (negb (truthy file_id)).
    { rewrite error_response_literal. intros [= <- <-]. right. by left. }
    destruct (download_mp3_from_drive rt svc file_id w) as [[?|mp3_path] w1];
      [done|].
    unfold transcribe_audio, bind, read_file, call, lift.
    destruct (files w1 !! mp3_path); [|done].
    destruct (transcriptions_create svc _) as [?|result]; [done|].
    destruct result; simpl; try done.
    destruct (os_remove rt mp3_path _) as [[?|[]] w3]; [done|].
    intros [= <- <-]. left. exists s.
    destruct (clean_transcript_edges s) as [H1 H2].
    by rewrite strip_id.
  - revert H. unfold bind, lift, ret.
    destruct (request_json request) as [?|data]; [done|].
    destruct (py_get data _ (PStr _)) as [?|prompt]; [done|].
    destruct (py_get data _ PNone) as [?|transcript]; [done|].
    destruct (negb (truthy transcript)).
    { rewrite error_response_literal. intros [= <- <-]. right. by left. }
    unfold generate_llm_report, bind, lift, call.
    destruct (add_to_str _ _) as [?|with_label]; [done|].
    destruct (str_add _ _) as [?|full_input]; [done|].
    destruct (chat_completions_create svc _) as [?|response]; [done|].
    unfold first_choice_text.
    destruct (choices response) as [|[c|] rest]; try done.
    intros [= <- <-]. left. by exists c.
Qed.

End MoreServiceProperties.

(** ** The further properties at concrete requests *)

Lemma falsy_fields_rejected_witness :
  transcribe_endpoint example_runtime (example_services 200 (inr PNone))
    (json_request [(str "file_id", PInt 0)]) empty_world =
  (inr (JSONResponse 400 (PDict [(str "error", PStr (str "Missing file_id"))])),
   empty_world).
Proof.
  destruct (falsy_fields_rejected example_runtime
              (example_services 200 (inr PNone))
              (json_request [(str "file_id", PInt 0)])
              [(str "file_id", PInt 0)] (PInt 0) empty_world eq_refl)
    as [H _].
  apply H; [repeat constructor | reflexivity].
Defined.

Lemma non_object_body_is_an_error_witness :
  generate_report_endpoint (example_services 200 (inr PNone))
    {| request_json := inr (PList [PInt 1; PInt 2]) |} empty_world =
  (inr (JSONResponse 500
          (PDict [(str "error",
                   PStr (str "'list' object has no attribute 'get'"))])),
   empty_world).
Proof.
  destruct (non_object_body_is_an_error example_runtime
              (example_services 200 (inr PNone))
              {| request_json := inr (PList [PInt 1; PInt 2]) |}
              (PList [PInt 1; PInt 2]) (str "list") empty_world eq_refl)
    as [_ H].
  - do 5 right. by exists [PInt 1; PInt 2].
  - exact H.
Defined.

Lemma report_needs_strings_witness :
  exists status message,
    generate_report_endpoint (example_services 200 (inr PNone))
      (json_request [(str "prompt", PInt 5); (str "transcript", PStr (str "Fine."))])
      empty_world =
    (inr (JSONResponse status (error_body message)), empty_world) /\
    (status = 400%Z \/ status = 500%Z).
Proof.
  apply (report_needs_strings (example_services 200 (inr PNone)) _
           [(str "prompt", PInt 5); (str "transcript", PStr (str "Fine."))]);
    [reflexivity|].
  left. exists (PInt 5). split; [reflexivity | intros s; discriminate].
Defined.

Lemma report_generated_witness :
  generate_report_endpoint
    (example_chat_services (inr {| choices := [Some (str " Strong hire. ")] |}))
    (json_request [(str "transcript", PStr (str "Good answers."))]) empty_world =
  (inr (Plain (PDict [(str "report", PStr (str "Strong hire."))])),
   {| files := ∅;
      calls :=
        [ChatCompletionsCreate (str "gpt-4")
           (chat_messages
              (default_prompt ++ transcript_separator ++ str "Good answers."))
           (str "0.7")] |}).
Proof.
  apply (report_generated
           (example_chat_services (inr {| choices := [Some (str " Strong hire. ")] |}))
           _ [(str "transcript", PStr (str "Good answers."))]
           default_prompt (str "Good answers.")
           {| choices := [Some (str " Strong hire. ")] |} (str " Strong hire. ") []);
    first [ reflexivity | discriminate ].
Defined.

Lemma report_failures_witness :
  generate_report_endpoint
    (example_chat_services
       (inl (Exn (str "RateLimitError")
               [str "APIStatusError"; str "APIError"; str "OpenAIError";
                str "Exception"; str "BaseException"]
               (str "quota exceeded"))))
    (json_request [(str "transcript", PStr (str "Good answers."))]) empty_world =
  (inr (JSONResponse 500 (PDict [(str "error", PStr (str "quota exceeded"))])),
   {| files := ∅;
      calls :=
        [ChatCompletionsCreate (str "gpt-4")
           (chat_messages
              (default_prompt ++ transcript_separator ++ str "Good answers."))
           (str "0.7")] |}).
Proof.
  apply (report_failures
           (example_chat_services
              (inl (Exn (str "RateLimitError")
                      [str "APIStatusError"; str "APIError"; str "OpenAIError";
                       str "Exception"; str "BaseException"]
                      (str "quota exceeded"))))
           (json_request [(str "transcript", PStr (str "Good answers."))])
           [(str "transcript", PStr (str "Good answers."))]
           default_prompt (str "Good answers.") empty_world
           eq_refl eq_refl eq_refl ltac:(discriminate)
           (inl (Exn (str "RateLimitError")
                   [str "APIStatusError"; str "APIError"; str "OpenAIError";
                    str "Exception"; str "BaseException"]
                   (str "quota exceeded")))
           (str "quota exceeded") eq_refl).
  left. eexists. split; [reflexivity|]. split; reflexivity.
Defined.

Lemma download_success_witness :
  download_mp3_from_drive example_runtime (example_services 200 (inr PNone))
    (PStr (str "1AbC")) empty_world =
  (inr (str "/tmp/interview.mp3"),
   {| files := <[str "/tmp/interview.mp3" := []]> ∅;
      calls :=
        [ServiceAccountToken; DriveFilesGet (PStr (str "1AbC"));
         RequestsGet (download_url example_runtime (PStr (str "1AbC")))
           (auth_headers (str "ya29.token"))] |}).
Proof.
  apply (download_success example_runtime (example_services 200 (inr PNone))
           (PStr (str "1AbC")) (str "ya29.token")
           [(str "name", PStr (str "interview.mp3"))] (str "interview.mp3")
           {| status_code := 200; text := str "File not found"; content := [] |}
           empty_world); reflexivity.
Defined.


Lemma download_without_name_witness :
  transcribe_endpoint example_runtime
    (example_drive_services [(str "id", PStr (str "1AbC"))])
    (json_request [(str "file_id", PStr (str "1AbC"))]) empty_world =
  (inr (JSONResponse 500 (PDict [(str "error", PStr (str "'name'"))])),
   {| files := ∅;
      calls := [ServiceAccountToken; DriveFilesGet (PStr (str "1AbC"))] |}).
Proof.
  destruct (download_without_name example_runtime
              (example_drive_services [(str "id", PStr (str "1AbC"))])
              (PStr (str "1AbC")) (str "ya29.token")
              [(str "id", PStr (str "1AbC"))] empty_world
              eq_refl eq_refl eq_refl)
    as [_ H].
  apply (H (json_request [(str "file_id", PStr (str "1AbC"))])
           [(str "file_id", PStr (str "1AbC"))]); reflexivity.
Defined.

Lemma transcription_pipeline_witness :
  transcribe_endpoint example_runtime
    (example_services 200 (inr (PStr (str " -- Hello   world 00:01:23 "))))
    (json_request [(str "file_id", PStr (str "1AbC"))])
    {| files := <[str "/tmp/interview.mp3" := []]> ∅; calls := [] |} =
  (inr (Plain (PDict [(str "transcript", PStr (str "Hello world"))])),
   {| files := delete (str "/tmp/interview.mp3")
                 (<[str "/tmp/interview.mp3" := []]> ∅);
      calls :=
        [ServiceAccountToken; DriveFilesGet (PStr (str "1AbC"));
         RequestsGet (download_url example_runtime (PStr (str "1AbC")))
           (auth_headers (str "ya29.token"));
         TranscriptionsCreate (str "whisper-1") [] (str "text") (str "en")] |}).
Proof.
  apply (transcription_pipeline example_runtime
           (example_services 200 (inr (PStr (str " -- Hello   world 00:01:23 "))))
           _ [(str "file_id", PStr (str "1AbC"))] (PStr (str "1AbC"))
           (str "ya29.token") [(str "name", PStr (str "interview.mp3"))]
           (str "interview.mp3")
           {| status_code := 200; text := str "File not found"; content := [] |}
           (str " -- Hello   world 00:01:23 ")); reflexivity.
Defined.
